(** * Calculator: the accumulator of [src/components/calculator.tsx]

    The component keeps four pieces of React state ([display],
    [previousValue], [operation], [waitingForNewValue]) and reacts to the
    twenty buttons of the keypad.  Each handler reads the state of the
    current render and issues a batch of [setX] calls; one tap is one
    transition, so a handler is embedded as a function [State -> State].

    The handlers lean on four ECMAScript built-ins: IEEE-754 binary64
    arithmetic, [parseFloat], [String(number)] (Number::toString) and
    [Number.prototype.toExponential].  They are modelled here after
    ECMA-262, over the executable binary64 specification of the standard
    library ([SpecFloat], precision 53, maximal exponent 1024). *)

From Stdlib Require Import ZArith Bool String Ascii List Lia.
From Stdlib Require Import Floats.SpecFloat.
Import ListNotations.

Local Open Scope string_scope.
Local Open Scope Z_scope.

(** ** JavaScript numbers *)

Module JS.

(** A JS number is a binary64 value.  ECMAScript has a single NaN, as
    [spec_float] does.  The values a program can hold are the canonical
    ones ([valid_binary prec emax]); every operation below returns such a
    value. *)
Definition number : Type := spec_float.

Definition prec : Z := 53.
Definition emax : Z := 1024.

Definition NaN : number := S754_nan.

Definition add : number -> number -> number := SFadd prec emax.
Definition sub : number -> number -> number := SFsub prec emax.
Definition mul : number -> number -> number := SFmul prec emax.
Definition div : number -> number -> number := SFdiv prec emax.

(** Global [isNaN] on a number. *)
Definition isNaN (x : number) : bool :=
  match x with S754_nan => true | _ => false end.

(** [Number.isFinite]: neither NaN nor an infinity. *)
Definition isFinite (x : number) : bool :=
  match x with S754_zero _ | S754_finite _ _ _ => true | _ => false end.

(** [x === 0]: true of both zeros, false of NaN. *)
Definition is_zero (x : number) : bool :=
  match x with S754_zero _ => true | _ => false end.

(** [Math.abs]. *)
Definition abs : number -> number := SFabs.

(** [x >= y] (false as soon as one side is NaN). *)
Definition geb (x y : number) : bool := SFleb y x.

(** *** Exact rationals a/b with b > 0, as pairs *)

(** [q * 10^k]. *)
Definition scale10 (q : Z * Z) (k : Z) : Z * Z :=
  let '(a, b) := q in
  if 0 <=? k then (a * 10 ^ k, b) else (a, b * 10 ^ (- k)).

(** The real value [m * 2^e] of a positive finite float. *)
Definition frac_of (m : positive) (e : Z) : Z * Z :=
  if 0 <=? e then (Zpos m * 2 ^ e, 1) else (Zpos m, 2 ^ (- e)).

(** The binary64 value nearest to [a/b] (ties to even, overflow to an
    infinity), for [0 < a] and [0 < b]: the quotient is computed with a
    remainder location and rounded once. *)
Definition round_fraction (sign : bool) (q : Z * Z) : number :=
  let '(a, b) := q in
  let '(mz, ez, lz) := SFdiv_core_binary prec emax a 0 b 0 in
  binary_round_aux prec emax sign mz ez lz.

(** The Number value of the decimal [s * 10^k] (ECMA-262, RoundMVResult
    without the optional truncation to 20 significant digits, as V8 and
    Hermes do). *)
Definition float_of_decimal (sign : bool) (s k : Z) : number :=
  if s =? 0 then S754_zero sign else round_fraction sign (scale10 (s, 1) k).

(** The numeric literals of the source. *)
Definition lit_100 : number := float_of_decimal false 100 0.
Definition lit_1e15 : number := float_of_decimal false 1 15.

(** *** Decimal digits *)

Definition digit_char (d : Z) : ascii :=
  match d with
  | 0 => "0" | 1 => "1" | 2 => "2" | 3 => "3" | 4 => "4"
  | 5 => "5" | 6 => "6" | 7 => "7" | 8 => "8" | _ => "9"
  end%char.

Definition is_digit (c : ascii) : bool :=
  match c with
  | "0" | "1" | "2" | "3" | "4" | "5" | "6" | "7" | "8" | "9" => true
  | _ => false
  end%char.

Definition digit_val (c : ascii) : Z := Z.of_nat (nat_of_ascii c) - 48.

Fixpoint digits_fuel (fuel : nat) (n : Z) (acc : string) : string :=
  match fuel with
  | O => acc
  | S f =>
      let acc' := String (digit_char (n mod 10)) acc in
      if n <? 10 then acc' else digits_fuel f (n / 10) acc'
  end.

(** The decimal representation of a natural number, most significant
    digit first, without leading zeros. *)
Definition decimal (n : Z) : string :=
  digits_fuel (S (Z.to_nat (Z.log2 n))) n EmptyString.

Definition ndigits (n : Z) : Z := Z.of_nat (String.length (decimal n)).

(** The integer [n] with [10^(n-1) <= q < 10^n], for a positive rational. *)
Definition dec_exp (q : Z * Z) : Z :=
  let '(a, b) := q in
  if b <=? a then ndigits (a / b)
  else
    let d := ndigits (b / a) in
    if b <=? a * 10 ^ (d - 1) then 2 - d else 1 - d.

(** *** String helpers *)

Fixpoint zeros (n : nat) : string :=
  match n with O => EmptyString | S k => String "0" (zeros k) end.

Fixpoint take (n : nat) (s : string) : string :=
  match n, s with
  | S k, String c r => String c (take k r)
  | _, _ => EmptyString
  end.

Fixpoint drop (n : nat) (s : string) : string :=
  match n, s with
  | S k, String _ r => drop k r
  | _, _ => s
  end.

(** [s.indexOf(c)] for a one-character pattern: the first position of
    [c], or [-1]. *)
Fixpoint indexOf (c : ascii) (s : string) : Z :=
  match s with
  | EmptyString => -1
  | String a r =>
      if Ascii.eqb a c then 0
      else let i := indexOf c r in if i =? -1 then -1 else i + 1
  end.

(** [s.startsWith(p)]. *)
Definition startsWith (p s : string) : bool := prefix p s.

(** [s.slice(1)]: the string without its first code unit.  Strings are
    kept as UTF-8 bytes here and JS indexes UTF-16 code units; the source
    slices only behind [startsWith('-')], where both drop the one unit
    of the minus sign. *)
Definition slice1 (s : string) : string :=
  match s with EmptyString => EmptyString | String _ r => r end.

(** *** Number::toString (radix 10) *)

Definition roundtrips (m : positive) (e : Z) (s k : Z) : bool :=
  SFeqb (float_of_decimal false s k) (S754_finite false m e).

(** The [k]-digit decimals next to [x = m * 2^e] are
    [lo * 10^(n0-k)] and [(lo+1) * 10^(n0-k)]; keep one that reads back
    as [x], the nearer one if both do (the even one on a tie). *)
Definition candidate (m : positive) (e : Z) (n0 k : Z) : option (Z * Z) :=
  let '(a, b) := scale10 (frac_of m e) (k - n0) in
  let lo := a / b in
  let hi := lo + 1 in
  let up := if hi =? 10 ^ k then (10 ^ (k - 1), n0 + 1) else (hi, n0) in
  match roundtrips m e lo (n0 - k), roundtrips m e hi (n0 - k) with
  | false, false => None
  | true, false => Some (lo, n0)
  | false, true => Some up
  | true, true =>
      match 2 * a ?= (2 * lo + 1) * b with
      | Lt => Some (lo, n0)
      | Gt => Some up
      | Eq => if Z.even lo then Some (lo, n0) else Some up
      end
  end.

(** Smallest digit count first.  Seventeen significant digits always
    read back as the same binary64 value, so the last line is not reached
    on a canonical float. *)
Fixpoint shortest_from (fuel : nat) (m : positive) (e : Z) (n0 k : Z)
  : Z * Z :=
  match fuel with
  | O =>
      let q := scale10 (frac_of m e) (k - n0) in (fst q / snd q, n0)
  | S f =>
      match candidate m e n0 k with
      | Some r => r
      | None => shortest_from f m e n0 (k + 1)
      end
  end.

(** The integers [s] and [n] of Number::toString: [s * 10^(n-k)] is [x]
    with as few digits [k] as possible. *)
Definition shortest (m : positive) (e : Z) : Z * Z :=
  shortest_from 17 m e (dec_exp (frac_of m e)) 1.

Definition exponent_part (e : Z) : string :=
  String "e" ((if e <? 0 then "-" else "+") ++ decimal (Z.abs e)).

(** Steps 6 to 10 of Number::toString on the digits [ds] of [s]. *)
Definition layout (ds : string) (n : Z) : string :=
  let k := Z.of_nat (String.length ds) in
  if (-5 <=? n) && (n <=? 21) then
    if k <=? n then ds ++ zeros (Z.to_nat (n - k))
    else if 0 <? n then take (Z.to_nat n) ds ++ "." ++ drop (Z.to_nat n) ds
    else "0." ++ zeros (Z.to_nat (- n)) ++ ds
  else
    match ds with
    | String d EmptyString => String d (exponent_part (n - 1))
    | String d rest => String d ("." ++ rest ++ exponent_part (n - 1))
    | EmptyString => exponent_part (n - 1)
    end.

Definition toString_pos (m : positive) (e : Z) : string :=
  let '(s, n) := shortest m e in layout (decimal s) n.

(** [String(x)], [x.toString()]. *)
Definition toString (x : number) : string :=
  match x with
  | S754_nan => "NaN"
  | S754_zero _ => "0"
  | S754_infinity false => "Infinity"
  | S754_infinity true => "-Infinity"
  | S754_finite false m e => toString_pos m e
  | S754_finite true m e => "-" ++ toString_pos m e
  end.

(** *** Number.prototype.toExponential *)

(** The nearest integer to [a/b], the larger one on a tie. *)
Definition round_half_up (q : Z * Z) : Z :=
  let '(a, b) := q in (2 * a + b) / (2 * b).

(** Step 10 of toExponential: [e] and [n] with [10^f <= n < 10^(f+1)]
    and [n * 10^(e-f)] as close to [x] as possible, the larger value on a
    tie. *)
Definition exp_digits (f : Z) (q : Z * Z) : Z * Z :=
  let e0 := dec_exp q - 1 in
  let n := round_half_up (scale10 q (f - e0)) in
  if n =? 10 ^ (f + 1) then (e0 + 1, 10 ^ f) else (e0, n).

(** Steps 11 and 12: a point behind the first digit when [f <> 0], then
    the exponent with its sign ([+] for zero). *)
Definition exp_layout (f : nat) (m : string) (e : Z) : string :=
  let m' :=
    match f, m with
    | S _, String a b => String a ("." ++ b)
    | _, _ => m
    end in
  m' ++ exponent_part e.

(** [x.toExponential(f)] for [0 <= f <= 100]; a larger [f] is a
    RangeError in ECMAScript, and the source passes the constant 6. *)
Definition toExponential (f : nat) (x : number) : string :=
  match x with
  | S754_nan | S754_infinity _ => toString x
  | S754_zero _ => exp_layout f (zeros (S f)) 0
  | S754_finite s m e =>
      let '(e10, n) := exp_digits (Z.of_nat f) (frac_of m e) in
      (if s then "-" else EmptyString) ++ exp_layout f (decimal n) e10
  end.

(** *** parseFloat *)

(** StrWhiteSpaceChar, in UTF-8: TAB, LF, VT, FF, CR, SP, U+00A0,
    U+1680, U+2000 to U+200A, U+2028, U+2029, U+202F, U+205F, U+3000 and
    U+FEFF. *)
Definition is_ws1 (c : ascii) : bool :=
  let n := nat_of_ascii c in
  ((9 <=? n) && (n <=? 13))%nat || (n =? 32)%nat.

Definition is_ws2 (c1 c2 : ascii) : bool :=
  ((nat_of_ascii c1 =? 194) && (nat_of_ascii c2 =? 160))%nat.

Definition is_ws3 (c1 c2 c3 : ascii) : bool :=
  let '(a, b, c) := (nat_of_ascii c1, nat_of_ascii c2, nat_of_ascii c3) in
  ((a =? 225) && (b =? 154) && (c =? 128)
   || (a =? 226) && (b =? 128)
      && (((128 <=? c) && (c <=? 138)) || (c =? 168) || (c =? 169)
          || (c =? 175))
   || (a =? 226) && (b =? 129) && (c =? 159)
   || (a =? 227) && (b =? 128) && (c =? 128)
   || (a =? 239) && (b =? 187) && (c =? 191))%nat.

(** TrimString(s, start). *)
Fixpoint trim_start (s : string) : string :=
  match s with
  | String c1 r1 =>
      if is_ws1 c1 then trim_start r1
      else
        match r1 with
        | String c2 r2 =>
            if is_ws2 c1 c2 then trim_start r2
            else
              match r2 with
              | String c3 r3 => if is_ws3 c1 c2 c3 then trim_start r3 else s
              | EmptyString => s
              end
        | EmptyString => s
        end
  | EmptyString => s
  end.

(** The longest prefix of decimal digits, and what follows it. *)
Fixpoint span_digits (s : string) : string * string :=
  match s with
  | String c r =>
      if is_digit c then let '(ds, rest) := span_digits r in (String c ds, rest)
      else (EmptyString, s)
  | EmptyString => (EmptyString, EmptyString)
  end.

(** The mathematical value of a string of decimal digits. *)
Fixpoint int_of_digits (acc : Z) (s : string) : Z :=
  match s with
  | String c r => int_of_digits (10 * acc + digit_val c) r
  | EmptyString => acc
  end.

Definition is_empty (s : string) : bool :=
  match s with EmptyString => true | _ => false end.

(** The value of the ExponentPart that [s] starts with; [0] when it
    starts with none (an [e] without digits is not part of the literal). *)
Definition exponent_value (s : string) : Z :=
  match s with
  | String c r =>
      if Ascii.eqb c "e" || Ascii.eqb c "E" then
        let '(neg, r1) :=
          match r with
          | String "+" r' => (false, r')
          | String "-" r' => (true, r')
          | _ => (false, r)
          end in
        let ds := fst (span_digits r1) in
        if is_empty ds then 0
        else if neg then - int_of_digits 0 ds else int_of_digits 0 ds
      else 0
  | EmptyString => 0
  end.

(** StringNumericValue of the longest prefix of [s] that is a
    StrUnsignedDecimalLiteral, negated when [sign]; NaN without one. *)
Definition parse_unsigned (sign : bool) (s : string) : number :=
  if prefix "Infinity" s then S754_infinity sign
  else
    let '(ip, r) := span_digits s in
    match r with
    | String "." r' =>
        let '(fp, r'') := span_digits r' in
        if is_empty ip && is_empty fp then NaN
        else
          float_of_decimal sign (int_of_digits 0 (ip ++ fp))
            (exponent_value r'' - Z.of_nat (String.length fp))
    | _ =>
        if is_empty ip then NaN
        else float_of_decimal sign (int_of_digits 0 ip) (exponent_value r)
    end.

Definition parseFloat (s : string) : number :=
  match trim_start s with
  | String "+" r => parse_unsigned false r
  | String "-" r => parse_unsigned true r
  | t => parse_unsigned false t
  end.

End JS.

(** ** The calculator component *)

Module Calculator.
Import JS.

(** [type Operation = '+' | '-' | '×' | '÷' | null]. *)
Inductive Op : Type := Plus | Minus | Times | Divide.

Definition Operation : Type := option Op.

(** The four [useState] cells. *)
Record State : Type := mkState {
  display : string;
  previousValue : option number;
  operation : Operation;
  waitingForNewValue : bool
}.

Definition initial : State :=
  {| display := "0"; previousValue := None; operation := None;
     waitingForNewValue := false |}.

(** The error marker shown after a division by zero. *)
Definition ERROR : string := "錯誤".

Definition setDisplay (v : string) (st : State) : State :=
  {| display := v; previousValue := previousValue st;
     operation := operation st;
     waitingForNewValue := waitingForNewValue st |}.

Definition setPreviousValue (v : option number) (st : State) : State :=
  {| display := display st; previousValue := v; operation := operation st;
     waitingForNewValue := waitingForNewValue st |}.

Definition setOperation (v : Operation) (st : State) : State :=
  {| display := display st; previousValue := previousValue st;
     operation := v; waitingForNewValue := waitingForNewValue st |}.

Definition setWaitingForNewValue (v : bool) (st : State) : State :=
  {| display := display st; previousValue := previousValue st;
     operation := operation st; waitingForNewValue := v |}.

Definition handleNumberPress (num : string) (st : State) : State :=
  if waitingForNewValue st then
    setWaitingForNewValue false (setDisplay num st)
  else
    setDisplay
      (if String.eqb (display st) "0" then num else display st ++ num) st.

Definition handleDecimalPress (st : State) : State :=
  if waitingForNewValue st then
    setWaitingForNewValue false (setDisplay "0." st)
  else if indexOf "." (display st) =? -1 then
    setDisplay (display st ++ ".") st
  else st.

Definition calculate (first second : number) (op : Operation) : number :=
  match op with
  | Some Plus => add first second
  | Some Minus => sub first second
  | Some Times => mul first second
  | Some Divide => if is_zero second then NaN else div first second
  | None => second
  end.

Definition handleOperationPress (op : Operation) (st : State) : State :=
  let currentValue := parseFloat (display st) in
  let st' :=
    match previousValue st with
    | None => setPreviousValue (Some currentValue) st
    | Some prev =>
        match operation st with
        | Some _ =>
            let result := calculate prev currentValue (operation st) in
            setPreviousValue (Some result) (setDisplay (toString result) st)
        | None => st
        end
    end in
  setOperation op (setWaitingForNewValue true st').

Definition handleEquals (st : State) : State :=
  match previousValue st, operation st with
  | Some prev, Some _ =>
      let currentValue := parseFloat (display st) in
      let result := calculate prev currentValue (operation st) in
      if isNaN result then
        setWaitingForNewValue true
          (setOperation None (setPreviousValue None (setDisplay ERROR st)))
      else
        setWaitingForNewValue true
          (setOperation None
             (setPreviousValue None (setDisplay (toString result) st)))
  | _, _ => st
  end.

Definition handleClear (st : State) : State :=
  setWaitingForNewValue false
    (setOperation None (setPreviousValue None (setDisplay "0" st))).

Definition handleToggleSign (st : State) : State :=
  if negb (String.eqb (display st) "0") then
    setDisplay
      (if startsWith "-" (display st) then slice1 (display st)
       else "-" ++ display st) st
  else st.

Definition handlePercentage (st : State) : State :=
  let value := div (parseFloat (display st)) lit_100 in
  setDisplay (toString value) st.

Definition formatDisplay (value : string) : string :=
  if String.eqb value ERROR then value
  else
    let num := parseFloat value in
    if isNaN num then "0"
    else if geb (abs num) lit_1e15 then toExponential 6 num
    else toString num.

(** *** The keypad *)

Inductive DigitKey : Type := K0 | K1 | K2 | K3 | K4 | K5 | K6 | K7 | K8 | K9.

(** The string a digit button passes to [handleNumberPress]. *)
Definition label (d : DigitKey) : string :=
  match d with
  | K0 => "0" | K1 => "1" | K2 => "2" | K3 => "3" | K4 => "4"
  | K5 => "5" | K6 => "6" | K7 => "7" | K8 => "8" | K9 => "9"
  end.

Inductive Event : Type :=
  | Digit (d : DigitKey)
  | Decimal
  | Operator (op : Op)
  | Equals
  | Clear
  | ToggleSign
  | Percent.

(** The [onPress] wiring of the button grid. *)
Definition step (ev : Event) (st : State) : State :=
  match ev with
  | Digit d => handleNumberPress (label d) st
  | Decimal => handleDecimalPress st
  | Operator op => handleOperationPress (Some op) st
  | Equals => handleEquals st
  | Clear => handleClear st
  | ToggleSign => handleToggleSign st
  | Percent => handlePercentage st
  end.

Definition run (evs : list Event) (st : State) : State :=
  fold_left (fun s ev => step ev s) evs st.

Definition reachable (st : State) : Prop :=
  exists evs, st = run evs initial.

End Calculator.

(** ** Shapes of display strings *)

Module Shape.
Import JS Calculator.

(** Only decimal digits. *)
Fixpoint all_digits (s : string) : bool :=
  match s with
  | EmptyString => true
  | String c r => is_digit c && all_digits r
  end.

(** The number of decimal points. *)
Fixpoint dots (s : string) : nat :=
  match s with
  | EmptyString => O
  | String c r => ((if Ascii.eqb c "." then 1 else 0) + dots r)%nat
  end.

(** A digit or the word Infinity comes first. *)
Definition unsigned_start (s : string) : bool :=
  match s with
  | String c _ => is_digit c || prefix "Infinity" s
  | EmptyString => false
  end.

(** [s] without its leading minus sign, if it has one. *)
Definition strip_minus (s : string) : string :=
  match s with
  | String c r => if Ascii.eqb c "-" then r else s
  | EmptyString => s
  end.

(** A digit or the word Infinity, behind at most one minus sign. *)
Definition numeric_start (s : string) : bool :=
  unsigned_start (strip_minus s).

(** Scientific notation with [f] fractional digits: an optional minus
    sign, one digit, a point, [f] digits, [e], a sign and an exponent. *)
Definition is_sci (f : nat) (s : string) : bool :=
  match strip_minus s with
  | String d (String p r) =>
      is_digit d && Ascii.eqb p "."
      && (let '(fr, r') := span_digits r in
          (String.length fr =? f)%nat
          && match r' with
             | String ec (String sg ex) =>
                 Ascii.eqb ec "e"
                 && (Ascii.eqb sg "+" || Ascii.eqb sg "-")
                 && all_digits ex && negb (is_empty ex)
             | _ => false
             end)
  | _ => false
  end.

(** Only 7-bit characters. *)
Fixpoint all7 (s : string) : bool :=
  match s with
  | EmptyString => true
  | String (Ascii _ _ _ _ _ _ _ b7) r => negb b7 && all7 r
  end.

(** [q] lies in [[1, 10)]. *)
Definition decade (q : Z * Z) : Prop := snd q <= fst q < 10 * snd q.

(** The four displays that read as NaN in a running calculator. *)
Definition nan_text (s : string) : bool :=
  String.eqb s ERROR || String.eqb s ("-" ++ ERROR)
  || String.eqb s "NaN" || String.eqb s "-NaN".

(** What every reachable state satisfies. *)
Record Inv (st : State) : Prop := mkInv {
  inv_text :
    numeric_start (display st) = true
    \/ (nan_text (display st) = true /\ waitingForNewValue st = true);
  inv_zero : display st <> "-0";
  inv_dots : (dots (display st) <= 1)%nat
}.

(** The digits typed, one after the other. *)
Fixpoint typed (ds : list DigitKey) : string :=
  match ds with
  | [] => EmptyString
  | d :: r => label d ++ typed r
  end.

Fixpoint drop_leading_zeros (ds : list DigitKey) : list DigitKey :=
  match ds with
  | K0 :: r => drop_leading_zeros r
  | _ => ds
  end.

(** The display after typing [ds] onto the display [d0]: the digits are
    appended, except that a display that is exactly ["0"] is replaced by
    the next digit (an empty display becomes the first digit typed and
    then follows the same rule). *)
Definition typed_from (d0 : string) (ds : list DigitKey) : string :=
  match ds with
  | [] => d0
  | _ =>
      if String.eqb d0 "0" || String.eqb d0 EmptyString then
        match drop_leading_zeros ds with
        | [] => "0"
        | r => typed r
        end
      else d0 ++ typed ds
  end.

End Shape.

(** ** Facts about the built-ins *)

Module JSFacts.
Import JS Shape.

Lemma is_digit_digit_char (d : Z) : is_digit (digit_char d) = true.
Proof.
  destruct d as [|p|p]; try reflexivity.
  do 4 (destruct p; try reflexivity).
Qed.

Lemma string_app_nil_r (s : string) : s ++ EmptyString = s.
Proof.
  induction s as [|c s IH]; cbn [append]; [reflexivity | now rewrite IH].
Qed.

Lemma string_app_assoc (a b c : string) : (a ++ b) ++ c = a ++ (b ++ c).
Proof.
  induction a as [|x a IH]; cbn [append]; [reflexivity | now rewrite IH].
Qed.

Lemma all_digits_app (a b : string) :
  all_digits (a ++ b) = all_digits a && all_digits b.
Proof.
  induction a as [|c a IH]; simpl; [reflexivity|].
  rewrite IH. now rewrite andb_assoc.
Qed.

Lemma all_digits_fuel (fuel : nat) :
  forall n acc, all_digits acc = true ->
                all_digits (digits_fuel fuel n acc) = true.
Proof.
  induction fuel as [|f IH]; intros n acc Hacc; simpl; [exact Hacc|].
  assert (H : all_digits (String (digit_char (n mod 10)) acc) = true)
    by (simpl; now rewrite is_digit_digit_char).
  destruct (n <? 10); [exact H | now apply IH].
Qed.

Lemma all_digits_decimal (n : Z) : all_digits (decimal n) = true.
Proof. now apply all_digits_fuel. Qed.

(** With enough fuel the loop writes exactly the digits of [n]. *)
Lemma digits_fuel_length (fuel : nat) :
  forall n acc,
    0 < n < 10 ^ Z.of_nat fuel ->
    exists k : nat,
      String.length (digits_fuel fuel n acc) = (S k + String.length acc)%nat
      /\ 10 ^ Z.of_nat k <= n < 10 ^ Z.of_nat (S k).
Proof.
  induction fuel as [|f IH]; intros n acc Hn.
  - simpl in Hn. lia.
  - simpl digits_fuel. destruct (Z.ltb_spec n 10) as [Hlt|Hge].
    + exists O. simpl. split; [reflexivity | lia].
    + assert (Hq : 0 < n / 10 < 10 ^ Z.of_nat f).
      { split.
        - apply Z.div_str_pos; lia.
        - apply Z.div_lt_upper_bound; [lia|].
          rewrite Nat2Z.inj_succ, Z.pow_succ_r in Hn by lia. lia. }
      destruct (IH (n / 10) (String (digit_char (n mod 10)) acc) Hq)
        as [k [Hlen Hk]].
      exists (S k). split.
      * rewrite Hlen. simpl. lia.
      * rewrite !Nat2Z.inj_succ, !Z.pow_succ_r by lia.
        rewrite Nat2Z.inj_succ, Z.pow_succ_r in Hk by lia.
        pose proof (Z.div_mod n 10 ltac:(lia)).
        pose proof (Z.mod_pos_bound n 10 ltac:(lia)). lia.
Qed.

Lemma decimal_fuel_enough (n : Z) :
  0 < n -> n < 10 ^ Z.of_nat (S (Z.to_nat (Z.log2 n))).
Proof.
  intros Hn.
  destruct (Z.log2_spec n Hn) as [_ Hlt].
  rewrite Nat2Z.inj_succ, Z2Nat.id by apply Z.log2_nonneg.
  eapply Z.lt_le_trans; [exact Hlt|].
  apply Z.pow_le_mono_l. lia.
Qed.

Lemma decimal_length (n : Z) :
  0 < n ->
  exists k : nat,
    String.length (decimal n) = S k
    /\ 10 ^ Z.of_nat k <= n < 10 ^ Z.of_nat (S k).
Proof.
  intros Hn. unfold decimal.
  destruct (digits_fuel_length _ n EmptyString
              (conj Hn (decimal_fuel_enough n Hn))) as [k [Hlen Hk]].
  exists k. split; [|exact Hk]. rewrite Hlen. simpl. lia.
Qed.

Lemma digits_fuel_grows (fuel : nat) :
  forall n acc,
    (String.length acc <= String.length (digits_fuel fuel n acc))%nat.
Proof.
  induction fuel as [|f IH]; intros n acc; simpl; [lia|].
  destruct (n <? 10); [simpl; lia|].
  etransitivity; [|apply IH]. simpl. lia.
Qed.

Lemma decimal_nonempty (n : Z) :
  exists c r, decimal n = String c r /\ is_digit c = true
              /\ all_digits r = true.
Proof.
  pose proof (all_digits_decimal n) as Hd.
  assert (Hlen : (1 <= String.length (decimal n))%nat).
  { unfold decimal. simpl digits_fuel. destruct (n <? 10); [simpl; lia|].
    etransitivity; [|apply digits_fuel_grows]. simpl. lia. }
  destruct (decimal n) as [|c r]; [simpl in Hlen; lia|].
  simpl in Hd. apply andb_prop in Hd. exists c, r. now repeat split.
Qed.

(** *** Decimal exponents *)

Lemma pow10_pos (k : Z) : 0 <= k -> 0 < 10 ^ k.
Proof. intros. apply Z.pow_pos_nonneg; lia. Qed.

Lemma pow10_succ (k : nat) : 10 ^ Z.of_nat (S k) = 10 * 10 ^ Z.of_nat k.
Proof. rewrite Nat2Z.inj_succ, Z.pow_succ_r; lia. Qed.

Lemma ndigits_spec (n : Z) :
  0 < n ->
  exists k : nat,
    ndigits n = Z.of_nat (S k) /\ 10 ^ Z.of_nat k <= n < 10 * 10 ^ Z.of_nat k.
Proof.
  intros Hn. destruct (decimal_length n Hn) as [k [Hlen Hk]].
  exists k. unfold ndigits. rewrite Hlen, <- pow10_succ. now split.
Qed.

Lemma div_bounds (a b : Z) : 0 < b -> b * (a / b) <= a < b * (a / b) + b.
Proof.
  intros Hb. pose proof (Z.div_mod a b ltac:(lia)).
  pose proof (Z.mod_pos_bound a b Hb). lia.
Qed.

Lemma dec_exp_decade (a b : Z) :
  0 < a -> 0 < b -> decade (scale10 (a, b) (1 - dec_exp (a, b))).
Proof.
  intros Ha Hb. unfold dec_exp, decade.
  destruct (Z.leb_spec b a) as [Hle|Hlt].
  - assert (Ht : 0 < a / b) by (apply Z.div_str_pos; lia).
    destruct (ndigits_spec _ Ht) as [k [-> Hk]].
    pose proof (div_bounds a b Hb) as Hd.
    pose proof (pow10_pos (Z.of_nat k) ltac:(lia)) as Hp.
    unfold scale10.
    replace (1 - Z.of_nat (S k)) with (- Z.of_nat k) by lia.
    destruct (Z.leb_spec 0 (- Z.of_nat k)) as [H0|H0]; cbn [fst snd].
    + assert (k = O) by lia. subst k.
      change (Z.of_nat 0) with 0 in *. change (- 0) with 0.
      rewrite Z.pow_0_r in *. generalize dependent (a / b). intros. nia.
    + rewrite Z.opp_involutive. generalize dependent (a / b).
      generalize dependent (10 ^ Z.of_nat k). intros. nia.
  - assert (Ht : 0 < b / a) by (apply Z.div_str_pos; lia).
    destruct (ndigits_spec _ Ht) as [k [-> Hk]].
    pose proof (div_bounds b a Ha) as Hd.
    pose proof (pow10_pos (Z.of_nat k) ltac:(lia)) as Hp.
    replace (Z.of_nat (S k) - 1) with (Z.of_nat k) by lia.
    unfold scale10.
    destruct (Z.leb_spec b (a * 10 ^ Z.of_nat k)) as [Hc|Hc].
    + replace (1 - (2 - Z.of_nat (S k))) with (Z.of_nat k) by lia.
      destruct (Z.leb_spec 0 (Z.of_nat k)); [|lia].
      cbn [fst snd]. generalize dependent (b / a).
      generalize dependent (10 ^ Z.of_nat k). intros. nia.
    + replace (1 - (1 - Z.of_nat (S k))) with (Z.of_nat (S k)) by lia.
      destruct (Z.leb_spec 0 (Z.of_nat (S k))); [|lia].
      cbn [fst snd]. rewrite pow10_succ. generalize dependent (b / a).
      generalize dependent (10 ^ Z.of_nat k). intros. nia.
Qed.

Lemma scale10_snd_pos (a b k : Z) : 0 < b -> 0 < snd (scale10 (a, b) k).
Proof.
  intros Hb. unfold scale10. destruct (Z.leb_spec 0 k); cbn [fst snd]; [lia|].
  pose proof (pow10_pos (- k) ltac:(lia)). nia.
Qed.

Lemma scale10_fst_pos (a b k : Z) : 0 < a -> 0 < fst (scale10 (a, b) k).
Proof.
  intros Ha. unfold scale10. destruct (Z.leb_spec 0 k); cbn [fst snd]; [|lia].
  pose proof (pow10_pos k ltac:(lia)). nia.
Qed.

(** Scaling by [10^(k+f)] is scaling by [10^k], then by [10^f]. *)
Lemma scale10_add (a b k f : Z) :
  0 <= f ->
  fst (scale10 (a, b) (k + f)) * snd (scale10 (a, b) k)
  = fst (scale10 (a, b) k) * snd (scale10 (a, b) (k + f)) * 10 ^ f.
Proof.
  intros Hf. unfold scale10.
  destruct (Z.leb_spec 0 k) as [Hk|Hk];
    destruct (Z.leb_spec 0 (k + f)) as [Hkf|Hkf]; cbn [fst snd]; try lia.
  - rewrite Z.pow_add_r by lia. ring.
  - replace (10 ^ f) with (10 ^ (k + f) * 10 ^ (- k)); [ring|].
    rewrite <- Z.pow_add_r by lia. f_equal. lia.
  - replace (10 ^ (- k)) with (10 ^ (- (k + f)) * 10 ^ f); [ring|].
    rewrite <- Z.pow_add_r by lia. f_equal. lia.
Qed.

Lemma decade_scale (a b k f : Z) :
  0 < b -> 0 <= f -> decade (scale10 (a, b) k) ->
  10 ^ f * snd (scale10 (a, b) (k + f)) <= fst (scale10 (a, b) (k + f))
  /\ fst (scale10 (a, b) (k + f))
     < 10 * 10 ^ f * snd (scale10 (a, b) (k + f)).
Proof.
  intros Hb Hf [Hlo Hhi].
  pose proof (scale10_add a b k f Hf) as E.
  pose proof (scale10_snd_pos a b k Hb) as H1.
  pose proof (scale10_snd_pos a b (k + f) Hb) as H2.
  pose proof (pow10_pos f Hf) as Hp.
  set (A1 := fst (scale10 (a, b) k)) in *.
  set (B1 := snd (scale10 (a, b) k)) in *.
  set (A2 := fst (scale10 (a, b) (k + f))) in *.
  set (B2 := snd (scale10 (a, b) (k + f))) in *.
  set (P := 10 ^ f) in *.
  assert (HBP : 0 < B2 * P) by nia.
  split.
  - apply Z.mul_le_mono_pos_r with (p := B1); [exact H1|]. rewrite E. nia.
  - apply Z.mul_lt_mono_pos_r with (p := B1); [exact H1|]. rewrite E. nia.
Qed.

Lemma frac_of_pos (m : positive) (e : Z) :
  0 < fst (frac_of m e) /\ 0 < snd (frac_of m e).
Proof.
  unfold frac_of. destruct (Z.leb_spec 0 e); cbn [fst snd].
  - pose proof (Z.pow_pos_nonneg 2 e ltac:(lia) ltac:(lia)).
    split; [apply Z.mul_pos_pos|]; lia.
  - pose proof (Z.pow_pos_nonneg 2 (- e) ltac:(lia) ltac:(lia)). lia.
Qed.

(** The integer of toExponential has exactly [f + 1] digits. *)
Lemma exp_digits_range (f a b : Z) :
  0 <= f -> 0 < a -> 0 < b ->
  10 ^ f <= snd (exp_digits f (a, b)) < 10 * 10 ^ f.
Proof.
  intros Hf Ha Hb. unfold exp_digits.
  pose proof (dec_exp_decade a b Ha Hb) as Hd.
  replace (f - (dec_exp (a, b) - 1)) with (1 - dec_exp (a, b) + f) by lia.
  destruct (decade_scale a b _ f Hb Hf Hd) as [Hlo Hhi].
  pose proof (scale10_snd_pos a b (1 - dec_exp (a, b) + f) Hb) as HB.
  pose proof (pow10_pos f Hf) as Hp.
  destruct (scale10 (a, b) (1 - dec_exp (a, b) + f)) as [A B].
  cbn [fst snd] in *. unfold round_half_up.
  rewrite Z.pow_add_r, Z.pow_1_r by lia.
  assert (H1 : 10 ^ f <= (2 * A + B) / (2 * B))
    by (apply Z.div_le_lower_bound; nia).
  assert (H2 : (2 * A + B) / (2 * B) < 10 ^ f * 10 + 1)
    by (apply Z.div_lt_upper_bound; nia).
  destruct (Z.eqb_spec ((2 * A + B) / (2 * B)) (10 ^ f * 10));
    cbn [snd]; lia.
Qed.

Lemma decimal_length_pow (f : nat) (n : Z) :
  10 ^ Z.of_nat f <= n < 10 * 10 ^ Z.of_nat f ->
  String.length (decimal n) = S f.
Proof.
  intros Hn.
  pose proof (pow10_pos (Z.of_nat f) ltac:(lia)) as Hp.
  destruct (decimal_length n ltac:(lia)) as [k [-> Hk]].
  f_equal. rewrite pow10_succ in Hk.
  destruct (Nat.lt_trichotomy k f) as [Hlt|[Heq|Hgt]]; [|exact Heq|].
  - assert (10 ^ Z.of_nat (S k) <= 10 ^ Z.of_nat f)
      by (apply Z.pow_le_mono_r; lia).
    rewrite pow10_succ in *. lia.
  - assert (10 ^ Z.of_nat (S f) <= 10 ^ Z.of_nat k)
      by (apply Z.pow_le_mono_r; lia).
    rewrite pow10_succ in *. lia.
Qed.

(** *** Rounding never produces NaN *)

Lemma shr_1_nonneg (mrs : shr_record) :
  0 <= shr_m mrs -> 0 <= shr_m (shr_1 mrs).
Proof.
  destruct mrs as [m r s]. destruct m as [|p|p]; simpl; try lia.
  destruct p; simpl; lia.
Qed.

Lemma iter_pos_preserves {A : Type} (P : A -> Prop) (f : A -> A) :
  (forall x, P x -> P (f x)) ->
  forall n x, P x -> P (iter_pos f n x).
Proof.
  intros Hf. induction n as [n IH|n IH|]; intros x Hx; simpl; auto.
Qed.

Lemma shr_nonneg (mrs : shr_record) (e n : Z) :
  0 <= shr_m mrs -> 0 <= shr_m (fst (shr mrs e n)).
Proof.
  intros H. destruct n as [|p|p]; simpl; try exact H.
  now apply (iter_pos_preserves (fun r => 0 <= shr_m r) shr_1 shr_1_nonneg).
Qed.

Lemma shr_fexp_nonneg (m e : Z) (l : location) :
  0 <= m -> 0 <= shr_m (fst (shr_fexp prec emax m e l)).
Proof.
  intros H. unfold shr_fexp. apply shr_nonneg.
  destruct l as [|[]]; exact H.
Qed.

Lemma round_nearest_even_nonneg (m : Z) (l : location) :
  0 <= m -> 0 <= round_nearest_even m l.
Proof.
  intros H. destruct l as [|[]]; simpl; try lia.
  destruct (Z.even m); lia.
Qed.

Lemma binary_round_aux_not_nan (s : bool) (m e : Z) (l : location) :
  0 <= m -> binary_round_aux prec emax s m e l <> S754_nan.
Proof.
  intros H. unfold binary_round_aux.
  pose proof (shr_fexp_nonneg m e l H) as H1.
  destruct (shr_fexp prec emax m e l) as [mrs' e'].
  cbn [fst] in H1.
  pose proof (shr_fexp_nonneg _ e' loc_Exact
                (round_nearest_even_nonneg _ (loc_of_shr_record mrs') H1))
    as H2.
  destruct (shr_fexp prec emax _ e' loc_Exact) as [mrs'' e''].
  cbn [fst] in H2.
  destruct (shr_m mrs'') as [|p|p]; try discriminate; [|lia].
  destruct (e'' <=? emax - prec); discriminate.
Qed.

Lemma div_core_nonneg (m1 e1 m2 e2 : Z) :
  0 <= m1 -> 0 < m2 ->
  0 <= fst (fst (SFdiv_core_binary prec emax m1 e1 m2 e2)).
Proof.
  intros H1 H2. unfold SFdiv_core_binary.
  set (s := e1 - e2 - _).
  set (m' := match s with
             | 0 => m1
             | Z.pos _ => Z.shiftl m1 s
             | Z.neg _ => 0
             end).
  assert (Hm' : 0 <= m').
  { subst m'. destruct s as [|p|p]; try lia.
    apply Z.shiftl_nonneg. exact H1. }
  pose proof (Z.div_pos m' m2 Hm' H2) as Hq. unfold Z.div in Hq.
  destruct (Z.div_eucl m' m2) as [q r]. exact Hq.
Qed.

Lemma round_fraction_not_nan (sign : bool) (a b : Z) :
  0 <= a -> 0 < b -> round_fraction sign (a, b) <> NaN.
Proof.
  intros Ha Hb. unfold round_fraction.
  pose proof (div_core_nonneg a 0 b 0 Ha Hb) as Hq.
  destruct (SFdiv_core_binary prec emax a 0 b 0) as [[mz ez] lz].
  now apply binary_round_aux_not_nan.
Qed.

Lemma float_of_decimal_not_nan (sign : bool) (s k : Z) :
  0 <= s -> float_of_decimal sign s k <> NaN.
Proof.
  intros Hs. unfold float_of_decimal.
  destruct (s =? 0); [discriminate|].
  pose proof (scale10_snd_pos s 1 k ltac:(lia)) as Hb.
  assert (Ha : 0 <= fst (scale10 (s, 1) k)).
  { unfold scale10. destruct (Z.leb_spec 0 k); cbn [fst]; [|lia].
    pose proof (pow10_pos k ltac:(lia)). nia. }
  destruct (scale10 (s, 1) k) as [a b]. now apply round_fraction_not_nan.
Qed.

(** Dividing by a finite non-zero number keeps NaN out. *)
Lemma div_finite_nan (x : number) (s : bool) (m : positive) (e : Z) :
  div x (S754_finite s m e) = NaN -> x = NaN.
Proof.
  destruct x as [sx|sx| |sx mx ex]; simpl; try discriminate; [reflexivity|].
  intros H. exfalso. revert H. unfold div, SFdiv.
  pose proof (div_core_nonneg (Zpos mx) ex (Zpos m) e ltac:(lia) ltac:(lia))
    as Hq.
  destruct (SFdiv_core_binary prec emax (Zpos mx) ex (Zpos m) e)
    as [[mz ez] lz].
  now apply binary_round_aux_not_nan.
Qed.

Lemma lit_100_finite : lit_100 = S754_finite false 7036874417766400 (-46).
Proof. vm_compute. reflexivity. Qed.

Lemma div_100_nan (x : number) : div x lit_100 = NaN -> x = NaN.
Proof. rewrite lit_100_finite. apply div_finite_nan. Qed.

(** *** parseFloat *)

Lemma span_digits_all_digits (s : string) :
  all_digits (fst (span_digits s)) = true.
Proof.
  induction s as [|c r IH]; simpl; [reflexivity|].
  destruct (is_digit c) eqn:Hc; [|reflexivity].
  destruct (span_digits r) as [ds rest]. simpl in *. now rewrite Hc.
Qed.

Lemma digit_val_nonneg (c : ascii) : is_digit c = true -> 0 <= digit_val c.
Proof.
  destruct c as [[] [] [] [] [] [] [] []]; simpl; intros H;
    try discriminate H; vm_compute; discriminate.
Qed.

Lemma int_of_digits_nonneg (s : string) :
  forall acc, all_digits s = true -> 0 <= acc -> 0 <= int_of_digits acc s.
Proof.
  induction s as [|c r IH]; intros acc Hs Hacc; cbn [int_of_digits];
    [exact Hacc|].
  cbn [all_digits] in Hs. apply andb_prop in Hs. destruct Hs as [Hc Hr].
  apply IH; [exact Hr|]. pose proof (digit_val_nonneg c Hc). lia.
Qed.

Lemma span_digits_head (c : ascii) (r : string) :
  is_digit c = true ->
  exists ds rest, span_digits (String c r) = (String c ds, rest).
Proof.
  intros Hc. simpl. rewrite Hc.
  destruct (span_digits r) as [ds rest]. now exists ds, rest.
Qed.

Lemma parse_unsigned_not_nan (sign : bool) (s : string) :
  unsigned_start s = true -> parse_unsigned sign s <> NaN.
Proof.
  intros Hs. unfold parse_unsigned.
  destruct (prefix "Infinity" s) eqn:Hinf; [discriminate|].
  destruct s as [|c r]; [discriminate|].
  unfold unsigned_start in Hs. rewrite Hinf, orb_false_r in Hs.
  pose proof (span_digits_all_digits (String c r)) as Hip.
  destruct (span_digits_head c r Hs) as [ds [rest E]].
  rewrite E in *. cbn [fst] in Hip.
  assert (Hdot : forall r', 
    (let '(fp, r'') := span_digits r' in
     if is_empty (String c ds) && is_empty fp then NaN
     else float_of_decimal sign (int_of_digits 0 (String c ds ++ fp))
            (exponent_value r'' - Z.of_nat (String.length fp))) <> NaN).
  { intros r'. pose proof (span_digits_all_digits r') as Hfp.
    destruct (span_digits r') as [fp r'']. cbn [fst] in Hfp.
    cbn [is_empty andb]. apply float_of_decimal_not_nan.
    apply int_of_digits_nonneg; [|lia].
    now rewrite all_digits_app, Hip, Hfp. }
  assert (Hint : float_of_decimal sign (int_of_digits 0 (String c ds))
                   (exponent_value rest) <> NaN).
  { apply float_of_decimal_not_nan.
    apply int_of_digits_nonneg; [exact Hip|lia]. }
  destruct rest as [|c' r']; [exact Hint|].
  destruct c' as [[] [] [] [] [] [] [] []]; try exact Hint. apply Hdot.
Qed.

Lemma trim_start_digit (c : ascii) (r : string) :
  is_digit c = true -> trim_start (String c r) = String c r.
Proof.
  intros Hc.
  destruct c as [[] [] [] [] [] [] [] []]; try discriminate Hc;
    destruct r as [|c2 [|c3 r3]]; reflexivity.
Qed.

Lemma parseFloat_unsigned (c : ascii) (r : string) :
  is_digit c = true ->
  parseFloat (String c r) = parse_unsigned false (String c r).
Proof.
  intros Hc. unfold parseFloat. rewrite (trim_start_digit c r Hc).
  destruct c as [[] [] [] [] [] [] [] []]; try discriminate Hc; reflexivity.
Qed.

Lemma parseFloat_minus (r : string) :
  parseFloat (String "-" r) = parse_unsigned true r.
Proof.
  unfold parseFloat.
  assert (E : trim_start (String "-" r) = String "-" r)
    by (destruct r as [|c2 [|c3 r3]]; reflexivity).
  now rewrite E.
Qed.

Lemma parseFloat_Infinity (r : string) :
  parseFloat (String "I" r) = parse_unsigned false (String "I" r).
Proof.
  unfold parseFloat.
  assert (E : trim_start (String "I" r) = String "I" r)
    by (destruct r as [|c2 [|c3 r3]]; reflexivity).
  now rewrite E.
Qed.

(** A display that starts like a number never reads as NaN. *)
Lemma parseFloat_numeric (s : string) :
  numeric_start s = true -> isNaN (parseFloat s) = false.
Proof.
  intros Hs.
  assert (H : parseFloat s <> NaN); [|now destruct (parseFloat s)].
  destruct s as [|c r]; [discriminate|].
  destruct (Ascii.eqb_spec c "-") as [->|Hm].
  - rewrite parseFloat_minus. apply parse_unsigned_not_nan. exact Hs.
  - assert (Hu : unsigned_start (String c r) = true).
    { revert Hs. unfold numeric_start, strip_minus.
      destruct (Ascii.eqb_spec c "-"); [contradiction | exact (fun H => H)]. }
    pose proof Hu as Hu'. unfold unsigned_start in Hu'.
    destruct (is_digit c) eqn:Hc.
    + rewrite (parseFloat_unsigned c r Hc). now apply parse_unsigned_not_nan.
    + destruct (Ascii.eqb_spec c "I") as [->|HI].
      * rewrite parseFloat_Infinity. now apply parse_unsigned_not_nan.
      * exfalso. cbn [orb prefix] in Hu'.
        destruct (ascii_dec "I" c) as [E|E]; [now symmetry in E|discriminate].
Qed.

(** *** The text of a number *)

Lemma dots_app (a b : string) : dots (a ++ b) = (dots a + dots b)%nat.
Proof. induction a as [|c a IH]; simpl; [reflexivity|]. rewrite IH. lia. Qed.

Lemma dots_digits (s : string) : all_digits s = true -> dots s = O.
Proof.
  induction s as [|c r IH]; simpl; [reflexivity|]. intros H.
  apply andb_prop in H. destruct H as [Hc Hr]. rewrite (IH Hr).
  destruct c as [[] [] [] [] [] [] [] []]; try discriminate Hc; reflexivity.
Qed.

Lemma all_digits_zeros (n : nat) : all_digits (zeros n) = true.
Proof. induction n as [|n IH]; simpl; [reflexivity | exact IH]. Qed.

Lemma all_digits_take (n : nat) :
  forall s, all_digits s = true -> all_digits (take n s) = true.
Proof.
  induction n as [|n IH]; intros [|c r] H; simpl; try reflexivity.
  simpl in H. apply andb_prop in H. destruct H as [Hc Hr].
  now rewrite Hc, (IH r Hr).
Qed.

Lemma all_digits_drop (n : nat) :
  forall s, all_digits s = true -> all_digits (drop n s) = true.
Proof.
  induction n as [|n IH]; intros [|c r] H; simpl; try reflexivity;
    try exact H.
  simpl in H. apply andb_prop in H. destruct H as [Hc Hr]. now apply IH.
Qed.

Lemma dots_exponent_part (e : Z) : dots (exponent_part e) = O.
Proof.
  unfold exponent_part. cbn [dots]. rewrite dots_app.
  rewrite (dots_digits _ (all_digits_decimal _)).
  destruct (e <? 0); reflexivity.
Qed.

Lemma layout_dots (ds : string) (n : Z) :
  all_digits ds = true -> (dots (layout ds n) <= 1)%nat.
Proof.
  intros Hd. unfold layout.
  destruct ((-5 <=? n) && (n <=? 21)).
  - destruct (Z.of_nat (String.length ds) <=? n); [|destruct (0 <? n)].
    + rewrite dots_app, (dots_digits _ Hd),
        (dots_digits _ (all_digits_zeros _)). lia.
    + rewrite !dots_app, (dots_digits _ (all_digits_take _ _ Hd)),
        (dots_digits _ (all_digits_drop _ _ Hd)). simpl. lia.
    + rewrite !dots_app, (dots_digits _ Hd),
        (dots_digits _ (all_digits_zeros _)). simpl. lia.
  - destruct ds as [|d [|d' rest]].
    + rewrite dots_exponent_part. lia.
    + pose proof (dots_digits _ Hd) as H. cbn [dots] in H.
      cbn [dots]. rewrite dots_exponent_part.
      destruct (Ascii.eqb d "."); simpl in H; lia.
    + pose proof (dots_digits _ Hd) as H. cbn [dots] in H.
      cbn [dots]. rewrite !dots_app, dots_exponent_part. cbn [dots].
      destruct (Ascii.eqb d "."); destruct (Ascii.eqb d' ".");
        simpl in *; lia.
Qed.

Lemma layout_head (c : ascii) (r : string) (n : Z) :
  is_digit c = true ->
  exists c' r', layout (String c r) n = String c' r' /\ is_digit c' = true.
Proof.
  intros Hc. unfold layout.
  destruct ((-5 <=? n) && (n <=? 21)).
  - destruct (Z.of_nat (String.length (String c r)) <=? n);
      [|destruct (Z.ltb_spec 0 n)].
    + eexists _, _. split; [reflexivity | exact Hc].
    + destruct (Z.to_nat n) as [|j] eqn:E; [lia|].
      eexists _, _. split; [reflexivity | exact Hc].
    + eexists _, _. split; reflexivity.
  - destruct r; eexists _, _; (split; [reflexivity | exact Hc]).
Qed.

Lemma layout_not_zero (c : ascii) (r : string) (n : Z) :
  layout (String c r) n = "0" -> String c r = "0".
Proof.
  unfold layout.
  destruct ((-5 <=? n) && (n <=? 21)).
  - destruct (Z.of_nat (String.length (String c r)) <=? n);
      [|destruct (Z.ltb_spec 0 n)].
    + cbn [append]. intros E. injection E as -> E.
      destruct r; [reflexivity | discriminate E].
    + destruct (Z.to_nat n) as [|j] eqn:Ej; [lia|].
      cbn [take append]. intros E. injection E as _ E.
      destruct (take j r); discriminate E.
    + discriminate.
  - destruct r; discriminate.
Qed.

Lemma digit_char_zero (d : Z) : 0 < d < 10 -> digit_char d <> "0"%char.
Proof.
  intros Hd.
  assert (H : d = 1 \/ d = 2 \/ d = 3 \/ d = 4 \/ d = 5 \/ d = 6 \/ d = 7
              \/ d = 8 \/ d = 9) by lia.
  repeat (destruct H as [->|H]; [discriminate|]). subst d. discriminate.
Qed.

Lemma decimal_not_zero (n : Z) : 0 < n -> decimal n <> "0".
Proof.
  intros Hn E.
  destruct (decimal_length n Hn) as [k [Hlen Hk]].
  rewrite E in Hlen. simpl in Hlen. assert (k = O) by lia. subst k.
  change (10 ^ Z.of_nat 0) with 1 in Hk. change (10 ^ Z.of_nat 1) with 10 in Hk.
  revert E. unfold decimal. cbn [digits_fuel].
  destruct (Z.ltb_spec n 10); [|lia].
  rewrite Z.mod_small by lia. intros E. injection E as E.
  now apply (digit_char_zero n ltac:(lia)).
Qed.

Lemma candidate_pos (m : positive) (e n0 k s n : Z) :
  1 <= k -> candidate m e n0 k = Some (s, n) -> 0 < s.
Proof.
  intros Hk. unfold candidate.
  destruct (frac_of_pos m e) as [Ha Hb].
  destruct (frac_of m e) as [a0 b0]. cbn [fst snd] in Ha, Hb.
  pose proof (scale10_fst_pos a0 b0 (k - n0) Ha) as HA.
  pose proof (scale10_snd_pos a0 b0 (k - n0) Hb) as HB.
  destruct (scale10 (a0, b0) (k - n0)) as [a b]. cbn [fst snd] in HA, HB.
  pose proof (Z.div_pos a b ltac:(lia) HB) as Hlo.
  pose proof (pow10_pos (k - 1) ltac:(lia)) as Hp.
  assert (Hup : 0 < fst (if a / b + 1 =? 10 ^ k
                         then (10 ^ (k - 1), n0 + 1) else (a / b + 1, n0)))
    by (destruct (a / b + 1 =? 10 ^ k); cbn [fst]; lia).
  assert (Hrt : roundtrips m e (a / b) (n0 - k) = true -> 0 < a / b).
  { unfold roundtrips, float_of_decimal.
    destruct (Z.eqb_spec (a / b) 0) as [->|Hne]; [discriminate | lia]. }
  assert (Hl : roundtrips m e (a / b) (n0 - k) = true ->
               Some (a / b, n0) = Some (s, n) -> 0 < s)
    by (intros R H; injection H as <- _; auto).
  assert (Hu : Some (if a / b + 1 =? 10 ^ k
                     then (10 ^ (k - 1), n0 + 1) else (a / b + 1, n0))
               = Some (s, n) -> 0 < s)
    by (intros H; injection H as H; rewrite H in Hup; exact Hup).
  destruct (roundtrips m e (a / b) (n0 - k)) eqn:R1;
    destruct (roundtrips m e (a / b + 1) (n0 - k)) eqn:R2;
    try discriminate; auto.
  destruct (2 * a ?= (2 * (a / b) + 1) * b); [destruct (Z.even (a / b))| |];
    auto.
Qed.

Lemma shortest_from_pos (fuel : nat) (m : positive) (e : Z) :
  forall k, 1 <= k ->
            0 < fst (shortest_from fuel m e (dec_exp (frac_of m e)) k).
Proof.
  induction fuel as [|f IH]; intros k Hk; cbn [shortest_from].
  - destruct (frac_of_pos m e) as [Ha Hb].
    destruct (frac_of m e) as [a b]. cbn [fst snd] in *.
    pose proof (dec_exp_decade a b Ha Hb) as Hd.
    replace (k - dec_exp (a, b)) with (1 - dec_exp (a, b) + (k - 1)) by lia.
    destruct (decade_scale a b _ (k - 1) Hb ltac:(lia) Hd) as [Hlo _].
    pose proof (scale10_snd_pos a b (1 - dec_exp (a, b) + (k - 1)) Hb) as HB.
    pose proof (pow10_pos (k - 1) ltac:(lia)) as Hp.
    eapply Z.lt_le_trans; [exact Hp|].
    apply Z.div_le_lower_bound; [exact HB|]. lia.
  - destruct (candidate m e _ k) as [[s n]|] eqn:E.
    + cbn [fst]. eapply candidate_pos; eauto.
    + apply IH. lia.
Qed.

Lemma toString_pos_head (m : positive) (e : Z) :
  exists c r, toString_pos m e = String c r /\ is_digit c = true.
Proof.
  unfold toString_pos. destruct (shortest m e) as [s n].
  destruct (decimal_nonempty s) as [c [r [-> [Hc _]]]].
  now apply layout_head.
Qed.

Lemma toString_pos_not_zero (m : positive) (e : Z) : toString_pos m e <> "0".
Proof.
  unfold toString_pos.
  pose proof (shortest_from_pos 17 m e 1 ltac:(lia)) as Hs.
  fold (shortest m e) in Hs. destruct (shortest m e) as [s n].
  cbn [fst] in Hs. intros E.
  destruct (decimal_nonempty s) as [c [r [Hd _]]]. rewrite Hd in E.
  apply layout_not_zero in E. rewrite <- Hd in E.
  now apply (decimal_not_zero s Hs).
Qed.

Lemma numeric_start_digit (c : ascii) (r : string) :
  is_digit c = true -> numeric_start (String c r) = true.
Proof.
  intros Hc.
  destruct c as [[] [] [] [] [] [] [] []]; try discriminate Hc; reflexivity.
Qed.

(** The text of a number other than NaN starts like a number. *)
Lemma toString_numeric (x : number) :
  isNaN x = false -> numeric_start (toString x) = true.
Proof.
  destruct x as [s|[]| |[] m e]; try reflexivity; try discriminate; intros _.
  - destruct (toString_pos_head m e) as [c [r [E Hc]]].
    cbn [toString]. rewrite E.
    change (unsigned_start (String c r) = true).
    unfold unsigned_start. now rewrite Hc.
  - destruct (toString_pos_head m e) as [c [r [E Hc]]].
    cbn [toString]. rewrite E. now apply numeric_start_digit.
Qed.

(** ... and holds at most one decimal point. *)
Lemma toString_dots (x : number) : (dots (toString x) <= 1)%nat.
Proof.
  assert (H : forall m e, (dots (toString_pos m e) <= 1)%nat).
  { intros m e. unfold toString_pos. destruct (shortest m e) as [s n].
    apply layout_dots, all_digits_decimal. }
  destruct x as [s|[]| |[] m e]; simpl; try lia; apply H.
Qed.

(** ... and is never a signed zero. *)
Lemma toString_not_minus_zero (x : number) : toString x <> "-0".
Proof.
  destruct x as [s|[]| |[] m e]; try discriminate; cbn [toString].
  - intros E. injection E as E. now apply (toString_pos_not_zero m e).
  - destruct (toString_pos_head m e) as [c [r [E Hc]]]. rewrite E.
    intros H. injection H as -> _. discriminate Hc.
Qed.

End JSFacts.

Module CalcFacts.
Import JS Shape Calculator JSFacts.

(** *** Scientific notation *)

Lemma span_digits_app (ds r : string) :
  all_digits ds = true ->
  match r with String c _ => is_digit c = false | EmptyString => True end ->
  span_digits (ds ++ r) = (ds, r).
Proof.
  intros Hd Hr. induction ds as [|c ds IH]; cbn [append].
  - destruct r as [|c r]; [reflexivity|]. cbn [span_digits]. now rewrite Hr.
  - cbn [all_digits] in Hd. apply andb_prop in Hd. destruct Hd as [Hc Hds].
    cbn [span_digits]. now rewrite Hc, (IH Hds).
Qed.

Lemma strip_minus_digit (c : ascii) (r : string) :
  is_digit c = true -> strip_minus (String c r) = String c r.
Proof.
  intros Hc. unfold strip_minus.
  destruct (Ascii.eqb_spec c "-") as [->|]; [discriminate Hc | reflexivity].
Qed.

Lemma exp_layout_sci (f : nat) (c : ascii) (b : string) (e : Z) (neg : bool) :
  is_digit c = true -> all_digits b = true -> String.length b = S f ->
  is_sci (S f)
    ((if neg then "-" else EmptyString) ++ exp_layout (S f) (String c b) e)
  = true.
Proof.
  intros Hc Hb Hlen.
  assert (E : exp_layout (S f) (String c b) e
              = String c (String "." (b ++ exponent_part e))) by reflexivity.
  rewrite E. unfold is_sci.
  assert (U : strip_minus ((if neg then "-" else EmptyString)
                           ++ String c (String "." (b ++ exponent_part e)))
              = String c (String "." (b ++ exponent_part e))).
  { destruct neg; [reflexivity|]. apply (strip_minus_digit c _ Hc). }
  rewrite U, Hc. cbn [andb Ascii.eqb Bool.eqb].
  rewrite (span_digits_app b (exponent_part e) Hb) by reflexivity.
  rewrite Hlen, Nat.eqb_refl. cbn [andb]. unfold exponent_part.
  destruct (decimal_nonempty (Z.abs e)) as [d [r [Hd [Hd1 Hd2]]]].
  pose proof (all_digits_decimal (Z.abs e)) as Hall.
  destruct (e <? 0); cbn [append orb andb Ascii.eqb Bool.eqb];
    rewrite Hall, Hd; reflexivity.
Qed.

(** On a finite number [toExponential] writes scientific notation with
    exactly the requested fractional digits. *)
Lemma toExponential_sci (f : nat) (x : number) :
  isFinite x = true -> is_sci (S f) (toExponential (S f) x) = true.
Proof.
  destruct x as [s| | |s m e]; try discriminate; intros _.
  - unfold toExponential. cbn [zeros].
    apply (exp_layout_sci f "0" (zeros (S f)) 0 false); try reflexivity.
    + apply all_digits_zeros.
    + clear. induction (S f) as [|n IH]; simpl; [reflexivity | now rewrite IH].
  - unfold toExponential.
    destruct (frac_of_pos m e) as [Ha Hb].
    destruct (frac_of m e) as [a b]. cbn [fst snd] in Ha, Hb.
    pose proof (exp_digits_range (Z.of_nat (S f)) a b ltac:(lia) Ha Hb) as Hr.
    destruct (exp_digits (Z.of_nat (S f)) (a, b)) as [e10 n]. cbn [snd] in Hr.
    pose proof (decimal_length_pow (S f) n Hr) as Hlen.
    pose proof (all_digits_decimal n) as Hall.
    destruct (decimal n) as [|c r]; [discriminate Hlen|].
    cbn [all_digits] in Hall. apply andb_prop in Hall.
    destruct Hall as [Hc Hrd].
    apply exp_layout_sci; auto.
Qed.

(** *** The invariant of the display *)

Lemma nan_text_cases (s : string) :
  nan_text s = true ->
  s = ERROR \/ s = "-" ++ ERROR \/ s = "NaN" \/ s = "-NaN".
Proof.
  unfold nan_text. rewrite !orb_true_iff, !String.eqb_eq. tauto.
Qed.

Lemma nan_text_not_numeric (s : string) :
  nan_text s = true -> numeric_start s = false.
Proof.
  intros H. destruct (nan_text_cases s H) as [->|[->|[->| ->]]]; reflexivity.
Qed.

Lemma prefix_app (p : string) :
  forall s t, prefix p s = true -> prefix p (s ++ t) = true.
Proof.
  induction p as [|a p IH]; intros s t H.
  - destruct (s ++ t); reflexivity.
  - destruct s as [|b s]; [discriminate H|]. cbn [append prefix] in *.
    destruct (ascii_dec a b); [now apply IH | discriminate H].
Qed.

Lemma unsigned_start_app (s t : string) :
  unsigned_start s = true -> unsigned_start (s ++ t) = true.
Proof.
  destruct s as [|c r]; [discriminate|]. unfold unsigned_start.
  cbn [append]. rewrite !orb_true_iff. intros [H|H]; [now left | right].
  now apply (prefix_app "Infinity" (String c r) t).
Qed.

Lemma numeric_start_app (s t : string) :
  numeric_start s = true -> numeric_start (s ++ t) = true.
Proof.
  destruct s as [|c r]; [discriminate|]. unfold numeric_start, strip_minus.
  cbn [append]. destruct (Ascii.eqb c "-"); intros H.
  - now apply unsigned_start_app.
  - now apply (unsigned_start_app (String c r) t).
Qed.

Lemma numeric_app_not_minus_zero (s t : string) :
  numeric_start s = true -> t <> EmptyString -> s ++ t <> "-0".
Proof.
  intros Hs Ht E. destruct s as [|c r]; [discriminate Hs|].
  cbn [append] in E. injection E as -> E.
  destruct r as [|c' r'].
  - discriminate Hs.
  - cbn [append] in E. injection E as _ E.
    destruct r'; [now destruct t | discriminate E].
Qed.

Lemma indexOf_ge (c : ascii) (s : string) : -1 <= indexOf c s.
Proof.
  induction s as [|a r IH]; cbn [indexOf]; [lia|].
  destruct (Ascii.eqb a c); [lia|].
  destruct (Z.eqb_spec (indexOf c r) (-1)); lia.
Qed.

Lemma indexOf_dots (s : string) : indexOf "." s = -1 -> dots s = O.
Proof.
  induction s as [|a r IH]; cbn [indexOf dots]; [reflexivity|].
  destruct (Ascii.eqb a "."); [discriminate|].
  pose proof (indexOf_ge "." r).
  destruct (Z.eqb_spec (indexOf "." r) (-1)) as [E|E]; [|lia].
  intros _. now rewrite (IH E).
Qed.

Lemma dots_indexOf (s : string) : dots s = O -> indexOf "." s = -1.
Proof.
  induction s as [|a r IH]; cbn [indexOf dots]; [reflexivity|].
  destruct (Ascii.eqb a "."); [discriminate|]. cbn [Nat.add].
  intros H. now rewrite (IH H).
Qed.

Lemma startsWith_minus (s : string) :
  startsWith "-" s = true -> exists r, s = String "-" r.
Proof.
  destruct s as [|c r]; [discriminate|]. unfold startsWith. cbn [prefix].
  destruct (ascii_dec "-" c) as [<-|]; [|discriminate]. now exists r.
Qed.

Lemma startsWith_minus_cons (r : string) :
  startsWith "-" (String "-" r) = true.
Proof.
  unfold startsWith. cbn [prefix].
  destruct (ascii_dec "-" "-"); [destruct r; reflexivity | contradiction].
Qed.

Lemma startsWith_minus_false (c : ascii) (r : string) :
  startsWith "-" (String c r) = false -> c <> "-"%char.
Proof.
  unfold startsWith. cbn [prefix]. intros H ->.
  destruct (ascii_dec "-" "-"); [|contradiction].
  destruct r; discriminate H.
Qed.

Lemma unsigned_start_no_minus (s : string) :
  unsigned_start s = true ->
  numeric_start s = true /\ startsWith "-" s = false.
Proof.
  destruct s as [|c r]; [discriminate|]. intros H.
  assert (Hc : c <> "-"%char).
  { intros ->. revert H. unfold unsigned_start. cbn [is_digit orb prefix].
    destruct (ascii_dec "I" "-"); discriminate. }
  split.
  - unfold numeric_start, strip_minus.
    destruct (Ascii.eqb_spec c "-"); [contradiction | exact H].
  - unfold startsWith. cbn [prefix].
    destruct (ascii_dec "-" c) as [E|E]; [now symmetry in E | reflexivity].
Qed.

Lemma label_digit (d : DigitKey) :
  exists c, label d = String c EmptyString /\ is_digit c = true.
Proof. destruct d; eexists; split; reflexivity. Qed.

Lemma Inv_text_of_toString (x : number) (w : bool) :
  (isNaN x = true -> w = true) ->
  numeric_start (toString x) = true
  \/ (nan_text (toString x) = true /\ w = true).
Proof.
  intros Hw. destruct (isNaN x) eqn:E.
  - right. destruct x; try discriminate E. split; [reflexivity | now apply Hw].
  - left. now apply toString_numeric.
Qed.

Lemma Inv_toString (st : State) (x : number) :
  (isNaN x = true -> waitingForNewValue st = true) ->
  display st = toString x -> Inv st.
Proof.
  intros Hw E. constructor; rewrite E.
  - now apply Inv_text_of_toString.
  - apply toString_not_minus_zero.
  - apply toString_dots.
Qed.

Lemma Inv_initial : Inv initial.
Proof. constructor; simpl; [now left | discriminate | lia]. Qed.

Lemma Inv_handleNumberPress (d : DigitKey) (st : State) :
  Inv st -> Inv (handleNumberPress (label d) st).
Proof.
  intros [Ht Hz Hd]. unfold handleNumberPress.
  destruct (label_digit d) as [c [Hl Hc]].
  assert (Hnum : numeric_start (label d) = true)
    by (rewrite Hl; now apply numeric_start_digit).
  assert (Hdots : dots (label d) = O)
    by (apply dots_digits; rewrite Hl; simpl; now rewrite Hc).
  assert (Hnz : label d <> "-0") by (rewrite Hl; discriminate).
  destruct (waitingForNewValue st) eqn:Hw.
  - constructor; cbn; [now left | exact Hnz | lia].
  - destruct Ht as [Ht|[_ Ht]]; [|discriminate Ht].
    destruct (String.eqb (display st) "0").
    + constructor; cbn; [now left | exact Hnz | lia].
    + constructor; cbn.
      * left. now apply numeric_start_app.
      * apply numeric_app_not_minus_zero; [exact Ht|]. now rewrite Hl.
      * rewrite dots_app. lia.
Qed.

Lemma Inv_handleDecimalPress (st : State) :
  Inv st -> Inv (handleDecimalPress st).
Proof.
  intros [Ht Hz Hd]. unfold handleDecimalPress.
  destruct (waitingForNewValue st) eqn:Hw.
  - constructor; cbn; [now left | discriminate | lia].
  - destruct Ht as [Ht|[_ Ht]]; [|discriminate Ht].
    destruct (Z.eqb_spec (indexOf "." (display st)) (-1)) as [E|E].
    + constructor; cbn.
      * left. now apply numeric_start_app.
      * now apply numeric_app_not_minus_zero.
      * rewrite dots_app, (indexOf_dots _ E). simpl. lia.
    + constructor; [now left | exact Hz | exact Hd].
Qed.

Lemma Inv_handleOperationPress (op : Operation) (st : State) :
  Inv st -> Inv (handleOperationPress op st).
Proof.
  intros [Ht Hz Hd]. unfold handleOperationPress.
  assert (Hkeep :
    forall p, Inv (setOperation op (setWaitingForNewValue true
                                      (setPreviousValue p st)))).
  { intros p. constructor; cbn; [|exact Hz | exact Hd].
    destruct Ht as [Ht|[Ht _]]; [now left | now right]. }
  destruct (previousValue st) as [prev|]; [|apply Hkeep].
  destruct (operation st) as [o|].
  - eapply Inv_toString; [|reflexivity]. reflexivity.
  - destruct st as [d p o w]. apply (Hkeep p).
Qed.

Lemma Inv_handleEquals (st : State) : Inv st -> Inv (handleEquals st).
Proof.
  intros H. unfold handleEquals.
  destruct (previousValue st) as [prev|]; [|exact H].
  destruct (operation st) as [o|]; [|exact H].
  destruct (isNaN _) eqn:E.
  - constructor; cbn; [now right | discriminate | lia].
  - eapply Inv_toString; [|reflexivity]. reflexivity.
Qed.

Lemma Inv_handleClear (st : State) : Inv (handleClear st).
Proof. constructor; cbn; [now left | discriminate | lia]. Qed.

Lemma Inv_handleToggleSign (st : State) :
  Inv st -> Inv (handleToggleSign st).
Proof.
  intros H. pose proof H as [Ht Hz Hd]. unfold handleToggleSign.
  destruct (String.eqb_spec (display st) "0") as [E0|E0]; [exact H|].
  cbn [negb].
  destruct Ht as [Ht|[Ht Hw]].
  - destruct (startsWith "-" (display st)) eqn:Hs.
    + destruct (startsWith_minus _ Hs) as [r Hr].
      rewrite Hr in *. cbn [slice1].
      assert (Hu : unsigned_start r = true) by exact Ht.
      destruct (unsigned_start_no_minus r Hu) as [Hn Hm].
      constructor; cbn.
      * now left.
      * intros ->. discriminate Hm.
      * exact Hd.
    + destruct (display st) as [|c r] eqn:Ed; [discriminate Ht|].
      pose proof (startsWith_minus_false c r Hs) as Hc.
      constructor; cbn.
      * left. revert Ht. unfold numeric_start, strip_minus.
        destruct (Ascii.eqb_spec c "-"); [contradiction | exact (fun x => x)].
      * intros E. injection E as E. congruence.
      * exact Hd.
  - destruct (nan_text_cases _ Ht) as [E|[E|[E|E]]]; rewrite E;
      constructor; cbn; try (right; split; [reflexivity | exact Hw]);
      try discriminate; lia.
Qed.

Lemma Inv_handlePercentage (st : State) :
  Inv st -> Inv (handlePercentage st).
Proof.
  intros [Ht Hz Hd]. unfold handlePercentage.
  eapply Inv_toString; [|reflexivity].
  cbn [setDisplay waitingForNewValue]. intros Hnan.
  assert (E : parseFloat (display st) = NaN).
  { apply div_100_nan.
    destruct (div (parseFloat (display st)) lit_100);
      try discriminate Hnan; reflexivity. }
  destruct Ht as [Ht|[_ Hw]]; [|exact Hw].
  apply parseFloat_numeric in Ht. rewrite E in Ht. discriminate Ht.
Qed.

Lemma Inv_step (ev : Event) (st : State) : Inv st -> Inv (step ev st).
Proof.
  destruct ev; cbn [step].
  - apply Inv_handleNumberPress.
  - apply Inv_handleDecimalPress.
  - apply Inv_handleOperationPress.
  - apply Inv_handleEquals.
  - intros _. apply Inv_handleClear.
  - apply Inv_handleToggleSign.
  - apply Inv_handlePercentage.
Qed.

Lemma run_snoc (evs : list Event) (ev : Event) (st : State) :
  run (evs ++ [ev]) st = step ev (run evs st).
Proof. unfold run. now rewrite fold_left_app. Qed.

Lemma Inv_run (evs : list Event) :
  forall st, Inv st -> Inv (run evs st).
Proof.
  induction evs as [|ev evs IH]; intros st H; [exact H|].
  apply (IH (step ev st)). now apply Inv_step.
Qed.

Lemma reachable_Inv (st : State) : reachable st -> Inv st.
Proof. intros [evs ->]. apply Inv_run, Inv_initial. Qed.

(** *** Where the error marker can come from *)

Lemma all7_app (a b : string) : all7 (a ++ b) = all7 a && all7 b.
Proof.
  induction a as [|c a IH]; cbn [append all7]; [reflexivity|].
  destruct c. now rewrite IH, andb_assoc.
Qed.

Lemma all7_digits (s : string) : all_digits s = true -> all7 s = true.
Proof.
  induction s as [|c r IH]; cbn [all_digits all7]; [reflexivity|].
  intros H. apply andb_prop in H. destruct H as [Hc Hr]. rewrite (IH Hr).
  destruct c as [[] [] [] [] [] [] [] []]; try discriminate Hc; reflexivity.
Qed.

Lemma all7_exponent_part (e : Z) : all7 (exponent_part e) = true.
Proof.
  unfold exponent_part. cbn [all7]. rewrite all7_app.
  rewrite (all7_digits _ (all_digits_decimal _)).
  destruct (e <? 0); reflexivity.
Qed.

Lemma all7_layout (ds : string) (n : Z) :
  all_digits ds = true -> all7 (layout ds n) = true.
Proof.
  intros Hd. unfold layout.
  destruct ((-5 <=? n) && (n <=? 21)).
  - destruct (Z.of_nat (String.length ds) <=? n); [|destruct (0 <? n)];
      rewrite !all7_app.
    + now rewrite (all7_digits _ Hd), (all7_digits _ (all_digits_zeros _)).
    + now rewrite (all7_digits _ (all_digits_take _ _ Hd)),
        (all7_digits _ (all_digits_drop _ _ Hd)).
    + now rewrite (all7_digits _ Hd), (all7_digits _ (all_digits_zeros _)).
  - pose proof (all7_digits _ Hd) as H7.
    destruct ds as [|d [|d' rest]].
    + apply all7_exponent_part.
    + cbn [all7] in *. destruct d. rewrite andb_true_r in H7.
      now rewrite H7, all7_exponent_part.
    + cbn [all7] in H7. destruct d. apply andb_prop in H7.
      destruct H7 as [H7 H7'].
      cbn [all7]. rewrite H7, !all7_app, all7_exponent_part.
      change (all7 (String d' rest)) with
        (let 'Ascii _ _ _ _ _ _ _ b7 := d' in negb b7 && all7 rest).
      cbn [all7 andb negb]. now rewrite andb_true_r.
Qed.

Lemma all7_toString (x : number) : all7 (toString x) = true.
Proof.
  assert (H : forall m e, all7 (toString_pos m e) = true).
  { intros m e. unfold toString_pos. destruct (shortest m e) as [s n].
    apply all7_layout, all_digits_decimal. }
  destruct x as [s|[]| |[] m e]; try reflexivity; cbn [toString].
  - rewrite all7_app, H. reflexivity.
  - apply H.
Qed.

Lemma all7_slice1 (s : string) : all7 s = true -> all7 (slice1 s) = true.
Proof.
  destruct s as [|c r]; [reflexivity|]. cbn [all7 slice1]. destruct c.
  intros H. apply andb_prop in H. tauto.
Qed.

Lemma all7_step (ev : Event) (st : State) :
  ev <> Equals -> all7 (display st) = true ->
  all7 (display (step ev st)) = true.
Proof.
  intros Hev H. destruct ev; try contradiction; cbn [step].
  - unfold handleNumberPress.
    assert (Hl : all7 (label d) = true) by (destruct d; reflexivity).
    destruct (waitingForNewValue st); [exact Hl|].
    cbn [setDisplay display].
    destruct (String.eqb (display st) "0"); [exact Hl|].
    now rewrite all7_app, H, Hl.
  - unfold handleDecimalPress.
    destruct (waitingForNewValue st); [reflexivity|].
    destruct (indexOf "." (display st) =? -1); [|exact H].
    cbn [setDisplay display]. now rewrite all7_app, H.
  - unfold handleOperationPress.
    destruct (previousValue st); [destruct (operation st)|];
      cbn [setOperation setWaitingForNewValue setPreviousValue setDisplay
           display]; try exact H.
    apply all7_toString.
  - reflexivity.
  - unfold handleToggleSign.
    destruct (negb (String.eqb (display st) "0")); [|exact H].
    cbn [setDisplay display].
    destruct (startsWith "-" (display st)); [now apply all7_slice1|].
    now rewrite all7_app, H.
  - apply all7_toString.
Qed.

Lemma all7_run (evs : list Event) :
  forall st, ~ In Equals evs -> all7 (display st) = true ->
             all7 (display (run evs st)) = true.
Proof.
  induction evs as [|ev evs IH]; intros st Hn H; [exact H|].
  apply (IH (step ev st)).
  - intros Hin. apply Hn. now right.
  - apply all7_step; [|exact H]. intros ->. apply Hn. now left.
Qed.

(** The text of a number is never the error marker. *)
Lemma toString_not_ERROR (x : number) : toString x <> ERROR.
Proof.
  intros E. pose proof (all7_toString x) as H. rewrite E in H. discriminate H.
Qed.


(** A display that ends in a digit or in a point is not the marker. *)
Lemma app_char_not_ERROR (s : string) (c : ascii) :
  is_digit c = true \/ c = "."%char -> s ++ String c EmptyString <> ERROR.
Proof.
  intros Hc E. unfold ERROR in E.
  repeat (destruct s as [|? s]; cbn [append] in E; try discriminate E).
  injection E as _ _ _ _ _ E. subst c.
  destruct Hc as [Hc|Hc]; discriminate Hc.
Qed.

End CalcFacts.

(** ** The claims *)

Import JS Calculator Shape JSFacts CalcFacts.

(** The worked examples of the specification, and two displays that do
    not read as finite numbers: a number typed with 309 digits, and the
    square of 1e200. *)
Example worked_examples :
  display (run [Digit K5; Operator Plus; Digit K3; Equals] initial) = "8"
  /\ display (run [Digit K9; Operator Divide; Digit K0; Equals] initial)
     = ERROR
  /\ display (run [Digit K1; Digit K2; Digit K0; Percent] initial) = "1.2"
  /\ display (run [Digit K7; ToggleSign; ToggleSign] initial) = "7"
  /\ display (run [Digit K0; Decimal; Digit K1; Operator Plus; Digit K0;
                   Decimal; Digit K2; Equals] initial)
     = "0.30000000000000004"
  /\ formatDisplay "1234567890123456789" = "1.234568e+18".
Proof. vm_compute. repeat split. Qed.

Example overflow_examples :
  parseFloat (display (run (repeat (Digit K9) 309) initial))
  = S754_infinity false
  /\ display (run (Digit K1 :: repeat (Digit K0) 200
                   ++ [Operator Times; Operator Times]) initial)
     = "Infinity".
Proof. vm_compute. repeat split. Qed.

(** C2.  With a previous value, a pending division and a display that
    reads as zero, Equals shows the error marker, forgets the previous
    value and the pending operation and waits for a new operand; and
    [calculate a z '÷'] is NaN for every [a] and every zero [z] (the
    function is total: it never throws). *)
Theorem C2_equals_division_by_zero :
  (forall st prev,
      previousValue st = Some prev ->
      operation st = Some Divide ->
      is_zero (parseFloat (display st)) = true ->
      step Equals st
      = {| display := ERROR; previousValue := None; operation := None;
           waitingForNewValue := true |})
  /\ (forall a z, is_zero z = true -> calculate a z (Some Divide) = NaN).
Proof.
  split.
  - intros st prev Hp Ho Hz. cbn [step]. unfold handleEquals.
    rewrite Hp, Ho. cbn [calculate]. rewrite Hz. reflexivity.
  - intros a z Hz. cbn [calculate]. now rewrite Hz.
Qed.

Lemma C2_witness :
  step Equals (run [Digit K9; Operator Divide; Digit K0] initial)
  = {| display := ERROR; previousValue := None; operation := None;
       waitingForNewValue := true |}
  /\ calculate (parseFloat "9") (S754_zero true) (Some Divide) = NaN.
Proof.
  split.
  - apply (proj1 C2_equals_division_by_zero _ (parseFloat "9"));
      reflexivity.
  - apply (proj2 C2_equals_division_by_zero). reflexivity.
Defined.

(** C4.  An operator press reads the display as [current]; without a
    previous value it stores [current]; with a previous value and a
    pending operation it shows and stores the result of that operation;
    it always waits for a new operand and makes [op] the pending
    operation.  So after at least one operator press, every further
    press re-applies the pending operation to the display of that
    moment. *)
Theorem C4_operator_press :
  (forall st op,
      let current := parseFloat (display st) in
      step (Operator op) st
      = match previousValue st, operation st with
        | None, _ =>
            {| display := display st; previousValue := Some current;
               operation := Some op; waitingForNewValue := true |}
        | Some prev, Some pending =>
            let result := calculate prev current (Some pending) in
            {| display := toString result; previousValue := Some result;
               operation := Some op; waitingForNewValue := true |}
        | Some prev, None =>
            {| display := display st; previousValue := Some prev;
               operation := Some op; waitingForNewValue := true |}
        end)
  /\ (forall st ops pending op,
         let st' := run (map Operator (ops ++ [pending])) st in
         exists prev,
           previousValue st' = Some prev
           /\ operation st' = Some pending
           /\ step (Operator op) st'
              = let result :=
                  calculate prev (parseFloat (display st')) (Some pending) in
                {| display := toString result; previousValue := Some result;
                   operation := Some op; waitingForNewValue := true |}).
Proof.
  assert (H1 : forall st op,
    step (Operator op) st
    = match previousValue st, operation st with
      | None, _ =>
          {| display := display st;
             previousValue := Some (parseFloat (display st));
             operation := Some op; waitingForNewValue := true |}
      | Some prev, Some pending =>
          {| display :=
               toString
                 (calculate prev (parseFloat (display st)) (Some pending));
             previousValue :=
               Some (calculate prev (parseFloat (display st)) (Some pending));
             operation := Some op; waitingForNewValue := true |}
      | Some prev, None =>
          {| display := display st; previousValue := Some prev;
             operation := Some op; waitingForNewValue := true |}
      end).
  { intros [d p o w] op. cbn [step]. unfold handleOperationPress.
    cbn [display previousValue operation].
    destruct p as [prev|]; [destruct o as [pending|]|]; reflexivity. }
  split; [exact H1|].
  intros st ops pending op st'. subst st'.
  rewrite map_app. cbn [map]. rewrite run_snoc.
  set (s0 := run (map Operator ops) st).
  assert (H2 : exists prev,
             previousValue (step (Operator pending) s0) = Some prev
             /\ operation (step (Operator pending) s0) = Some pending).
  { rewrite H1. destruct (previousValue s0); [destruct (operation s0)|];
      eexists; split; reflexivity. }
  destruct H2 as [prev [Hp Ho]]. exists prev. repeat split; auto.
  rewrite (H1 (step (Operator pending) s0) op), Hp, Ho. reflexivity.
Qed.

(** C5.  A digit press replaces the display when a new operand is
    awaited (and stops waiting), replaces a display that is exactly "0",
    and appends otherwise.  So digits typed in a state that does not
    wait spell out on the display, a leading "0" being replaced. *)
Theorem C5_digit_press :
  (forall st d,
      step (Digit d) st
      = {| display :=
             if waitingForNewValue st then label d
             else if String.eqb (display st) "0" then label d
                  else display st ++ label d;
           previousValue := previousValue st;
           operation := operation st;
           waitingForNewValue := false |})
  /\ (forall ds st,
         waitingForNewValue st = false ->
         run (map Digit ds) st
         = setDisplay (typed_from (display st) ds) st).
Proof.
  assert (H1 : forall st d,
    step (Digit d) st
    = {| display :=
           if waitingForNewValue st then label d
           else if String.eqb (display st) "0" then label d
                else display st ++ label d;
         previousValue := previousValue st;
         operation := operation st;
         waitingForNewValue := false |}).
  { intros [dsp p o w] d. cbn [step]. unfold handleNumberPress.
    cbn [display waitingForNewValue previousValue operation].
    destruct w; [reflexivity|]. destruct (String.eqb dsp "0"); reflexivity. }
  split; [exact H1|].
  assert (Hcons : forall d ds st,
             run (map Digit (d :: ds)) st
             = run (map Digit ds) (step (Digit d) st)) by reflexivity.
  assert (Happ : forall ds st,
             waitingForNewValue st = false ->
             display st <> "0" -> display st <> EmptyString ->
             run (map Digit ds) st
             = setDisplay (display st ++ typed ds) st).
  { induction ds as [|d ds IH]; intros [dsp p o w] Hw H0 He;
      cbn [display waitingForNewValue] in *; subst w.
    - cbn [typed map run fold_left]. unfold setDisplay.
      cbn [display previousValue operation waitingForNewValue].
      now rewrite string_app_nil_r.
    - rewrite Hcons, H1.
      cbn [display waitingForNewValue previousValue operation].
      destruct (String.eqb_spec dsp "0"); [contradiction|].
      rewrite IH; cbn [setDisplay display waitingForNewValue
                         previousValue operation]; auto.
      + cbn [typed]. now rewrite string_app_assoc.
      + destruct dsp; [contradiction|]. destruct (label_digit d) as [c [-> _]].
        cbn [append]. destruct dsp; discriminate.
      + destruct dsp; [contradiction | discriminate]. }
  assert (Hzero : forall ds st,
             waitingForNewValue st = false -> display st = "0" ->
             run (map Digit ds) st
             = setDisplay (match drop_leading_zeros ds with
                           | [] => "0"
                           | r => typed r
                           end) st).
  { induction ds as [|d ds IH]; intros [dsp p o w] Hw H0;
      cbn [display waitingForNewValue] in *; subst w dsp.
    - reflexivity.
    - rewrite Hcons, H1.
      cbn [display waitingForNewValue previousValue operation String.eqb
           Ascii.eqb Bool.eqb].
      destruct d;
        try (rewrite Happ;
             [cbn [setDisplay display previousValue operation
                     waitingForNewValue label drop_leading_zeros typed];
              reflexivity
             | reflexivity | discriminate | discriminate]).
      cbn [label drop_leading_zeros]. now rewrite IH. }
  intros [|d ds] [dsp p o w] Hw; [reflexivity|].
  cbn [waitingForNewValue] in Hw. subst w.
  unfold typed_from. cbn [display].
  destruct (String.eqb_spec dsp "0") as [E0|E0]; cbn [orb].
  - now apply Hzero.
  - destruct (String.eqb_spec dsp EmptyString) as [Ee|Ee].
    + subst dsp. rewrite Hcons, H1.
      cbn [display waitingForNewValue previousValue operation
           String.eqb append].
      destruct d;
        try (rewrite Happ;
             [cbn [setDisplay display previousValue operation
                     waitingForNewValue label drop_leading_zeros typed];
              reflexivity
             | reflexivity | discriminate | discriminate]).
      rewrite Hzero by reflexivity. reflexivity.
    + now apply Happ.
Qed.

Lemma C5_witness :
  run (map Digit [K0; K0; K4; K0; K2]) initial
  = setDisplay (typed_from (display initial) [K0; K0; K4; K0; K2]) initial.
Proof. apply (proj2 C5_digit_press). reflexivity. Defined.

(** C6.  With a previous value and a pending operation whose result is
    a number, Equals shows that result, forgets the previous value and
    the pending operation and waits for a new operand; without one of
    them it changes nothing.  Pressing 5, +, 3, = shows "8". *)
Theorem C6_equals :
  (forall st prev pending,
      previousValue st = Some prev ->
      operation st = Some pending ->
      let result := calculate prev (parseFloat (display st)) (Some pending) in
      isNaN result = false ->
      step Equals st
      = {| display := toString result; previousValue := None;
           operation := None; waitingForNewValue := true |})
  /\ (forall st,
         previousValue st = None \/ operation st = None ->
         step Equals st = st)
  /\ display (run [Digit K5; Operator Plus; Digit K3; Equals] initial) = "8".
Proof.
  split; [|split].
  - intros st prev pending Hp Ho result Hr. subst result.
    cbn [step]. unfold handleEquals. rewrite Hp, Ho, Hr. reflexivity.
  - intros st H. cbn [step]. unfold handleEquals.
    destruct H as [-> | ->]; [reflexivity|].
    destruct (previousValue st); reflexivity.
  - vm_compute. reflexivity.
Qed.

Lemma C6_witness :
  step Equals (run [Digit K5; Operator Plus; Digit K3] initial)
  = {| display := "8"; previousValue := None; operation := None;
       waitingForNewValue := true |}
  /\ step Equals initial = initial.
Proof.
  split.
  - apply (proj1 C6_equals
             (run [Digit K5; Operator Plus; Digit K3] initial)
             (parseFloat "5") Plus); reflexivity.
  - apply (proj1 (proj2 C6_equals)). left. reflexivity.
Defined.

(** C7.  The display of a reachable state holds at most one decimal
    point; a second Decimal press changes nothing, so two presses in a
    row leave at most one point. *)
Theorem C7_one_decimal_point :
  (forall st, reachable st -> (dots (display st) <= 1)%nat)
  /\ (forall st, step Decimal (step Decimal st) = step Decimal st)
  /\ (forall st,
         reachable st ->
         (dots (display (step Decimal (step Decimal st))) <= 1)%nat).
Proof.
  assert (Hidem : forall st, step Decimal (step Decimal st) = step Decimal st).
  { intros [d p o w]. cbn [step]. destruct w; [reflexivity|].
    assert (Hin :
      handleDecimalPress
        {| display := d; previousValue := p; operation := o;
           waitingForNewValue := false |}
      = if indexOf "." d =? -1
        then {| display := d ++ "."; previousValue := p; operation := o;
                waitingForNewValue := false |}
        else {| display := d; previousValue := p; operation := o;
                waitingForNewValue := false |}) by reflexivity.
    rewrite Hin.
    destruct (Z.eqb_spec (indexOf "." d) (-1)) as [E|E].
    - unfold handleDecimalPress. cbn [waitingForNewValue display].
      destruct (Z.eqb_spec (indexOf "." (d ++ ".")) (-1)) as [E'|E'];
        [|reflexivity].
      apply indexOf_dots in E'. rewrite dots_app in E'. simpl in E'. lia.
    - rewrite Hin.
      destruct (Z.eqb_spec (indexOf "." d) (-1)); [contradiction|reflexivity]. }
  split; [|split].
  - intros st H. exact (inv_dots st (reachable_Inv st H)).
  - exact Hidem.
  - intros st H. rewrite Hidem.
    exact (inv_dots _ (Inv_step Decimal st (reachable_Inv st H))).
Qed.

Lemma C7_witness :
  (dots (display (run [Digit K3; Decimal; Digit K1; Decimal] initial)) <= 1)%nat
  /\ (dots (display (step Decimal (step Decimal
                       (run [Digit K3] initial)))) <= 1)%nat.
Proof.
  split.
  - apply (proj1 C7_one_decimal_point).
    exists [Digit K3; Decimal; Digit K1; Decimal]. reflexivity.
  - apply (proj2 (proj2 C7_one_decimal_point)).
    exists [Digit K3]. reflexivity.
Defined.

(** C9.  ToggleSign leaves a display "0" alone; otherwise it strips a
    leading minus sign or prepends one, as text.  Two presses give back
    the state they started from in every reachable state (and, state by
    state, whenever the display is not "-0" and does not start with two
    minus signs); 7, toggle, toggle shows "7". *)
Theorem C9_toggle_sign :
  (forall st, display st = "0" -> step ToggleSign st = st)
  /\ (forall st,
         display st <> "0" ->
         step ToggleSign st
         = setDisplay (if startsWith "-" (display st)
                       then slice1 (display st)
                       else "-" ++ display st) st)
  /\ (forall st,
         display st <> "-0" -> startsWith "--" (display st) = false ->
         step ToggleSign (step ToggleSign st) = st)
  /\ (forall st,
         reachable st -> step ToggleSign (step ToggleSign st) = st)
  /\ display (run [Digit K7; ToggleSign; ToggleSign] initial) = "7".
Proof.
  assert (H3 : forall st,
             display st <> "-0" -> startsWith "--" (display st) = false ->
             step ToggleSign (step ToggleSign st) = st).
  { intros [d p o w] Hz Hmm. cbn [display] in *. cbn [step].
    unfold handleToggleSign at 2. cbn [display].
    destruct (String.eqb_spec d "0") as [E0|E0]; cbn [negb].
    - subst d. reflexivity.
    - destruct (startsWith "-" d) eqn:Hs.
      + destruct (startsWith_minus d Hs) as [r ->]. cbn [slice1].
        unfold handleToggleSign. cbn [setDisplay display].
        destruct (String.eqb_spec r "0") as [Er|Er]; [congruence|].
        cbn [negb].
        assert (Hr : startsWith "-" r = false).
        { destruct r as [|c r]; [reflexivity|].
          revert Hmm. unfold startsWith. cbn [prefix].
          destruct (ascii_dec "-" "-"); [|contradiction].
          destruct (ascii_dec "-" c); [|reflexivity].
          destruct r; discriminate. }
        rewrite Hr. reflexivity.
      + unfold handleToggleSign. cbn [setDisplay display].
        destruct (String.eqb_spec ("-" ++ d) "0"); [discriminate|].
        cbn [negb append]. rewrite startsWith_minus_cons. reflexivity. }
  split; [|split; [|split; [|split]]].
  - intros st E. cbn [step]. unfold handleToggleSign. rewrite E. reflexivity.
  - intros st E. cbn [step]. unfold handleToggleSign.
    destruct (String.eqb_spec (display st) "0"); [contradiction|reflexivity].
  - exact H3.
  - intros st Hr. destruct (reachable_Inv st Hr) as [Ht Hz _].
    apply H3; [exact Hz|].
    destruct Ht as [Ht|[Ht _]].
    + destruct (display st) as [|c r]; [reflexivity|].
      unfold startsWith. cbn [prefix].
      destruct (ascii_dec "-" c) as [<-|]; [|reflexivity].
      destruct r as [|c' r]; [reflexivity|]. cbn [prefix].
      destruct (ascii_dec "-" c') as [<-|]; [|reflexivity].
      discriminate Ht.
    + destruct (nan_text_cases _ Ht) as [E|[E|[E|E]]]; rewrite E; reflexivity.
  - reflexivity.
Qed.

Lemma C9_witness :
  step ToggleSign initial = initial
  /\ step ToggleSign (step ToggleSign (run [Digit K7] initial))
     = run [Digit K7] initial.
Proof.
  split.
  - apply (proj1 C9_toggle_sign). reflexivity.
  - apply (proj1 (proj2 (proj2 (proj2 C9_toggle_sign)))).
    exists [Digit K7]. reflexivity.
Defined.

(** C10 as stated fails: after 9, ÷, 0, =, toggle the display is
    "-錯誤", and a second ToggleSign press, which is no Equals press,
    puts the error marker back on the display. *)
Lemma C10_counterexample :
  let st := run [Digit K9; Operator Divide; Digit K0; Equals; ToggleSign]
              initial in
  display st <> ERROR
  /\ ToggleSign <> Equals
  /\ display (step ToggleSign st) = ERROR.
Proof. repeat split; discriminate. Qed.

(** C10, amended.  When an operator press resolves a pending division
    by a display that reads as zero, the display becomes the text "NaN"
    and the previous value NaN.  An operator press never puts the error
    marker on a display that did not show it.  The only presses that do
    are Equals, and ToggleSign on the display "-錯誤", the marker behind
    a minus sign; and no run without an Equals press shows the marker or
    "-錯誤". *)
Theorem C10_operator_division_by_zero :
  (forall st prev op,
      previousValue st = Some prev ->
      operation st = Some Divide ->
      is_zero (parseFloat (display st)) = true ->
      step (Operator op) st
      = {| display := "NaN"; previousValue := Some NaN;
           operation := Some op; waitingForNewValue := true |})
  /\ (forall st op,
         display st <> ERROR -> display (step (Operator op) st) <> ERROR)
  /\ (forall st ev,
         display st <> ERROR -> display (step ev st) = ERROR ->
         ev = Equals \/ (ev = ToggleSign /\ display st = "-" ++ ERROR))
  /\ (forall evs,
         ~ In Equals evs ->
         display (run evs initial) <> ERROR
         /\ display (run evs initial) <> "-" ++ ERROR).
Proof.
  assert (Hop : forall st op,
             display st <> ERROR -> display (step (Operator op) st) <> ERROR).
  { intros st op H. cbn [step]. unfold handleOperationPress.
    destruct (previousValue st); [destruct (operation st)|];
      cbn [setOperation setWaitingForNewValue setPreviousValue setDisplay
           display]; try exact H.
    apply toString_not_ERROR. }
  split; [|split; [exact Hop|split]].
  - intros st prev op Hp Ho Hz. cbn [step]. unfold handleOperationPress.
    rewrite Hp, Ho. cbn [calculate]. rewrite Hz. reflexivity.
  - intros st ev Hne H. destruct ev; cbn [step] in H.
    + exfalso. revert H. unfold handleNumberPress.
      destruct (label_digit d) as [c [Hl Hc]].
      assert (Hlab : label d <> ERROR) by (rewrite Hl; discriminate).
      destruct (waitingForNewValue st); [exact Hlab|].
      cbn [setDisplay display].
      destruct (String.eqb (display st) "0"); [exact Hlab|].
      rewrite Hl. apply app_char_not_ERROR. now left.
    + exfalso. revert H. unfold handleDecimalPress.
      destruct (waitingForNewValue st); [discriminate|].
      destruct (indexOf "." (display st) =? -1); [|exact Hne].
      cbn [setDisplay display]. apply app_char_not_ERROR. now right.
    + exfalso. exact (Hop st op Hne H).
    + now left.
    + discriminate H.
    + revert H. unfold handleToggleSign.
      destruct (negb (String.eqb (display st) "0")); [|now intros H].
      cbn [setDisplay display].
      destruct (startsWith "-" (display st)) eqn:Hs.
      * destruct (startsWith_minus _ Hs) as [r Hr]. rewrite Hr.
        cbn [slice1]. intros ->. right. split; reflexivity.
      * discriminate.
    + exfalso. revert H. apply toString_not_ERROR.
  - intros evs Hn.
    pose proof (all7_run evs initial Hn eq_refl) as H.
    split; intros E; rewrite E in H; discriminate H.
Qed.

Lemma C10_witness :
  step (Operator Plus) (run [Digit K9; Operator Divide; Digit K0] initial)
  = {| display := "NaN"; previousValue := Some NaN;
       operation := Some Plus; waitingForNewValue := true |}
  /\ display (step (Operator Times) initial) <> ERROR
  /\ (Equals = Equals
      \/ (Equals = ToggleSign
          /\ display (run [Digit K9; Operator Divide; Digit K0] initial)
             = "-" ++ ERROR))
  /\ (display (run [Digit K9; Operator Divide; Digit K0; Operator Plus]
                 initial) <> ERROR
      /\ display (run [Digit K9; Operator Divide; Digit K0; Operator Plus]
                    initial) <> "-" ++ ERROR).
Proof.
  split; [|split; [|split]].
  - apply (proj1 C10_operator_division_by_zero _ (parseFloat "9"));
      reflexivity.
  - apply (proj1 (proj2 C10_operator_division_by_zero)). discriminate.
  - apply (proj1 (proj2 (proj2 C10_operator_division_by_zero))
             (run [Digit K9; Operator Divide; Digit K0] initial) Equals);
      [discriminate | reflexivity].
  - apply (proj2 (proj2 (proj2 C10_operator_division_by_zero))).
    cbn [In]. intros H. repeat (destruct H as [H|H]; [discriminate H|]).
    exact H.
Defined.

(** C1 as stated fails: after 9, ÷, 0, + the display is the text "NaN",
    which is neither a finite number nor the error marker. *)
Lemma C1_counterexample :
  let st := run [Digit K9; Operator Divide; Digit K0; Operator Plus] initial in
  display st = "NaN"
  /\ ~ (isFinite (parseFloat (display st)) = true \/ display st = ERROR).
Proof.
  split; [reflexivity|]. intros [H|H]; vm_compute in H; discriminate H.
Qed.

(** C1, amended.  In every reachable state the display reads as a
    number other than NaN (a finite one or an infinity), or it is one of
    the four texts 錯誤, -錯誤, NaN, -NaN while a new operand is
    awaited. *)
Theorem C1_display_invariant :
  forall st,
    reachable st ->
    isNaN (parseFloat (display st)) = false
    \/ ((display st = ERROR \/ display st = "-" ++ ERROR
         \/ display st = "NaN" \/ display st = "-NaN")
        /\ waitingForNewValue st = true).
Proof.
  intros st Hr. destruct (reachable_Inv st Hr) as [[Ht|[Ht Hw]] _ _].
  - left. now apply parseFloat_numeric.
  - right. split; [now apply nan_text_cases | exact Hw].
Qed.

Lemma C1_witness :
  let st := run [Digit K9; Operator Divide; Digit K0; Equals; ToggleSign]
              initial in
  isNaN (parseFloat (display st)) = false
  \/ ((display st = ERROR \/ display st = "-" ++ ERROR
       \/ display st = "NaN" \/ display st = "-NaN")
      /\ waitingForNewValue st = true).
Proof.
  apply C1_display_invariant.
  exists [Digit K9; Operator Divide; Digit K0; Equals; ToggleSign].
  reflexivity.
Defined.




(** C8 as stated fails on an infinity: its absolute value is at least
    1e15, and it is rendered as the word Infinity. *)
Lemma C8_counterexample :
  String.eqb "Infinity" ERROR = false
  /\ isNaN (parseFloat "Infinity") = false
  /\ geb (abs (parseFloat "Infinity")) lit_1e15 = true
  /\ formatDisplay "Infinity" = "Infinity"
  /\ is_sci 6 (formatDisplay "Infinity") = false.
Proof. repeat split. Qed.

(** C8, amended.  [formatDisplay] is a total function of the display
    string: the error marker is returned as it is; a string that reads
    as NaN gives "0"; a finite number of absolute value at least 1e15 is
    written in scientific notation with six fractional digits; an
    infinity is written Infinity or -Infinity; every other number is
    written as [String] writes it. *)
Theorem C8_formatDisplay :
  forall value,
    let num := parseFloat value in
    (value = ERROR -> formatDisplay value = value)
    /\ (value <> ERROR -> isNaN num = true -> formatDisplay value = "0")
    /\ (value <> ERROR -> isFinite num = true ->
        geb (abs num) lit_1e15 = true ->
        formatDisplay value = toExponential 6 num
        /\ is_sci 6 (formatDisplay value) = true)
    /\ (value <> ERROR ->
        forall s, num = S754_infinity s ->
                  formatDisplay value = if s then "-Infinity" else "Infinity")
    /\ (value <> ERROR -> isNaN num = false ->
        geb (abs num) lit_1e15 = false ->
        formatDisplay value = toString num).
Proof.
  intros value num. unfold formatDisplay. fold num.
  destruct (String.eqb_spec value ERROR) as [E|E].
  - repeat split; intros; try contradiction; reflexivity.
  - split; [intros; contradiction|].
    split; [intros _ Hn; now rewrite Hn|].
    split; [|split].
    + intros _ Hf Hg.
      assert (Hn : isNaN num = false) by (destruct num; auto; discriminate).
      rewrite Hn, Hg. split; [reflexivity|]. now apply toExponential_sci.
    + intros _ s Hs. rewrite Hs. destruct s; reflexivity.
    + intros _ Hn Hg. now rewrite Hn, Hg.
Qed.

Lemma C8_witness :
  formatDisplay ERROR = ERROR
  /\ formatDisplay "NaN" = "0"
  /\ (formatDisplay "1234567890123456789"
      = toExponential 6 (parseFloat "1234567890123456789")
      /\ is_sci 6 (formatDisplay "1234567890123456789") = true)
  /\ formatDisplay "-Infinity" = "-Infinity"
  /\ formatDisplay "0.50" = toString (parseFloat "0.50").
Proof.
  split; [|split; [|split; [|split]]].
  - apply (proj1 (C8_formatDisplay ERROR)). reflexivity.
  - apply (proj1 (proj2 (C8_formatDisplay "NaN"))); [discriminate|reflexivity].
  - apply (proj1 (proj2 (proj2 (C8_formatDisplay "1234567890123456789"))));
      [discriminate | reflexivity | reflexivity].
  - apply (proj1 (proj2 (proj2 (proj2 (C8_formatDisplay "-Infinity"))))
             ltac:(discriminate) true).
    reflexivity.
  - apply (proj2 (proj2 (proj2 (proj2 (C8_formatDisplay "0.50")))));
      [discriminate | reflexivity | reflexivity].
Defined.

(** ** Further facts about the handlers *)

Module ExtraFacts.
Import JS Calculator Shape JSFacts CalcFacts.

Lemma run_app (evs1 evs2 : list Event) (st : State) :
  run (evs1 ++ evs2) st = run evs2 (run evs1 st).
Proof. unfold run. now rewrite fold_left_app. Qed.

(** *** Arithmetic on finite numbers *)

Lemma binary_round_not_nan (s : bool) (m : positive) (e : Z) :
  binary_round prec emax s m e <> NaN.
Proof.
  unfold binary_round. destruct (shl_align m e _) as [mz ez].
  now apply binary_round_aux_not_nan.
Qed.

Lemma binary_normalize_not_nan (m e : Z) (sz : bool) :
  binary_normalize prec emax m e sz <> NaN.
Proof.
  destruct m; cbn [binary_normalize]; [discriminate| |];
    apply binary_round_not_nan.
Qed.

Lemma add_finite (a b : number) :
  isFinite a = true -> isFinite b = true -> add a b <> NaN.
Proof.
  destruct a as [sa| | |sa ma ea], b as [sb| | |sb mb eb];
    try discriminate; intros _ _; unfold add, SFadd.
  - destruct sa, sb; discriminate.
  - apply binary_normalize_not_nan.
Qed.

Lemma sub_finite (a b : number) :
  isFinite a = true -> isFinite b = true -> sub a b <> NaN.
Proof.
  destruct a as [sa| | |sa ma ea], b as [sb| | |sb mb eb];
    try discriminate; intros _ _; unfold sub, SFsub.
  - destruct sa, sb; discriminate.
  - apply binary_normalize_not_nan.
Qed.

Lemma mul_finite (a b : number) :
  isFinite a = true -> isFinite b = true -> mul a b <> NaN.
Proof.
  destruct a as [sa| | |sa ma ea], b as [sb| | |sb mb eb];
    try discriminate; intros _ _; unfold mul, SFmul; try discriminate.
  apply binary_round_aux_not_nan. lia.
Qed.

Lemma div_finite (a b : number) :
  isFinite a = true -> isFinite b = true -> is_zero b = false ->
  div a b <> NaN.
Proof.
  destruct a as [sa| | |sa ma ea], b as [sb| | |sb mb eb];
    try discriminate; intros _ _ _; unfold div; cbn [SFdiv];
    try discriminate.
  pose proof (div_core_nonneg (Zpos ma) ea (Zpos mb) eb ltac:(lia) ltac:(lia))
    as Hq.
  destruct (SFdiv_core_binary prec emax (Zpos ma) ea (Zpos mb) eb)
    as [[mz ez] lz].
  now apply binary_round_aux_not_nan.
Qed.

Lemma isNaN_false (x : number) : x <> NaN -> isNaN x = false.
Proof. destruct x; try reflexivity. now intros H. Qed.

Lemma calculate_finite (a b : number) (op : Op) :
  isFinite a = true -> isFinite b = true ->
  isNaN (calculate a b (Some op)) = true
  <-> op = Divide /\ is_zero b = true.
Proof.
  intros Ha Hb. split.
  - destruct op; cbn [calculate]; intros H.
    + now rewrite (isNaN_false _ (add_finite a b Ha Hb)) in H.
    + now rewrite (isNaN_false _ (sub_finite a b Ha Hb)) in H.
    + now rewrite (isNaN_false _ (mul_finite a b Ha Hb)) in H.
    + destruct (is_zero b) eqn:Hz; [now split|].
      now rewrite (isNaN_false _ (div_finite a b Ha Hb Hz)) in H.
  - intros [-> Hz]. cbn [calculate]. now rewrite Hz.
Qed.

Lemma add_comm (a b : number) : add a b = add b a.
Proof.
  destruct a as [sa|sa| |sa ma ea], b as [sb|sb| |sb mb eb];
    try reflexivity; unfold add, SFadd;
    try (destruct sa, sb; reflexivity).
  now rewrite Z.min_comm, Z.add_comm.
Qed.

Lemma mul_comm (a b : number) : mul a b = mul b a.
Proof.
  destruct a as [sa|sa| |sa ma ea], b as [sb|sb| |sb mb eb];
    try reflexivity; unfold mul, SFmul;
    try (now rewrite xorb_comm).
  now rewrite xorb_comm, Pos.mul_comm, Z.add_comm.
Qed.

(** *** The sign flag of the parser *)

Lemma binary_round_aux_opp (m e : Z) (l : location) :
  binary_round_aux prec emax true m e l
  = SFopp (binary_round_aux prec emax false m e l).
Proof.
  unfold binary_round_aux.
  destruct (shr_fexp prec emax m e l) as [mrs' e'].
  destruct (shr_fexp prec emax _ e' loc_Exact) as [mrs'' e''].
  destruct (shr_m mrs''); try reflexivity.
  destruct (e'' <=? emax - prec); reflexivity.
Qed.

Lemma float_of_decimal_opp (s k : Z) :
  float_of_decimal true s k = SFopp (float_of_decimal false s k).
Proof.
  unfold float_of_decimal. destruct (s =? 0); [reflexivity|].
  unfold round_fraction. destruct (scale10 (s, 1) k) as [a b].
  destruct (SFdiv_core_binary prec emax a 0 b 0) as [[mz ez] lz].
  apply binary_round_aux_opp.
Qed.

Lemma parse_unsigned_opp (s : string) :
  parse_unsigned true s = SFopp (parse_unsigned false s).
Proof.
  unfold parse_unsigned.
  destruct (prefix "Infinity" s); [reflexivity|].
  destruct (span_digits s) as [ip r].
  assert (H1 : (if is_empty ip then NaN
                else float_of_decimal true (int_of_digits 0 ip)
                       (exponent_value r))
               = SFopp (if is_empty ip then NaN
                        else float_of_decimal false (int_of_digits 0 ip)
                               (exponent_value r)))
    by (destruct (is_empty ip); [reflexivity | apply float_of_decimal_opp]).
  destruct r as [|c r']; [exact H1|].
  destruct c as [[] [] [] [] [] [] [] []]; try exact H1.
  destruct (span_digits r') as [fp r''].
  destruct (is_empty ip && is_empty fp);
    [reflexivity | apply float_of_decimal_opp].
Qed.

Lemma SFopp_involutive (x : number) : SFopp (SFopp x) = x.
Proof. destruct x; cbn [SFopp]; now rewrite ?negb_involutive. Qed.

Lemma parseFloat_unsigned_start (s : string) :
  unsigned_start s = true -> parseFloat s = parse_unsigned false s.
Proof.
  destruct s as [|c r]; [discriminate|]. unfold unsigned_start.
  destruct (is_digit c) eqn:Hc; [intros _; now apply parseFloat_unsigned|].
  cbn [orb prefix]. destruct (ascii_dec "I" c) as [<-|]; [|discriminate].
  intros _. apply parseFloat_Infinity.
Qed.

(** The text of a number reads as NaN exactly when the number is NaN. *)
Lemma parseFloat_toString_isNaN (x : number) :
  isNaN (parseFloat (toString x)) = isNaN x.
Proof.
  destruct (isNaN x) eqn:E.
  - destruct x; try discriminate E. reflexivity.
  - apply parseFloat_numeric. now apply toString_numeric.
Qed.

Lemma div_100_isNaN (x : number) : isNaN (div x lit_100) = isNaN x.
Proof.
  destruct (isNaN x) eqn:E.
  - destruct x; try discriminate E. reflexivity.
  - apply isNaN_false. intros H. apply div_100_nan in H. subst x.
    discriminate E.
Qed.

(** *** Typing digits *)

Lemma step_Digit (d : DigitKey) (st : State) :
  step (Digit d) st
  = {| display :=
         if waitingForNewValue st then label d
         else if String.eqb (display st) "0" then label d
              else display st ++ label d;
       previousValue := previousValue st;
       operation := operation st;
       waitingForNewValue := false |}.
Proof.
  destruct st as [dsp p o w]. cbn [step]. unfold handleNumberPress.
  cbn [display waitingForNewValue previousValue operation].
  destruct w; [reflexivity|]. destruct (String.eqb dsp "0"); reflexivity.
Qed.

Lemma run_cons (ev : Event) (evs : list Event) (st : State) :
  run (ev :: evs) st = run evs (step ev st).
Proof. reflexivity. Qed.

Lemma run_digits_append (ds : list DigitKey) :
  forall st,
    waitingForNewValue st = false ->
    display st <> "0" -> display st <> EmptyString ->
    run (map Digit ds) st = setDisplay (display st ++ typed ds) st.
Proof.
  induction ds as [|d ds IH]; intros [dsp p o w] Hw H0 He;
    cbn [display waitingForNewValue] in *; subst w.
  - cbn [typed map run fold_left]. unfold setDisplay.
    cbn [display previousValue operation waitingForNewValue].
    now rewrite string_app_nil_r.
  - cbn [map]. rewrite run_cons, step_Digit.
    cbn [display waitingForNewValue previousValue operation].
    destruct (String.eqb_spec dsp "0"); [contradiction|].
    rewrite IH; cbn [setDisplay display waitingForNewValue
                       previousValue operation]; auto.
    + cbn [typed]. now rewrite string_app_assoc.
    + destruct dsp; [contradiction|]. destruct (label_digit d) as [c [-> _]].
      cbn [append]. destruct dsp; discriminate.
    + destruct dsp; [contradiction | discriminate].
Qed.

Lemma run_digits_zero (ds : list DigitKey) :
  forall st,
    waitingForNewValue st = false -> display st = "0" ->
    run (map Digit ds) st
    = setDisplay (match drop_leading_zeros ds with
                  | [] => "0"
                  | r => typed r
                  end) st.
Proof.
  induction ds as [|d ds IH]; intros [dsp p o w] Hw H0;
    cbn [display waitingForNewValue] in *; subst w dsp.
  - reflexivity.
  - cbn [map]. rewrite run_cons, step_Digit.
    cbn [display waitingForNewValue previousValue operation String.eqb
         Ascii.eqb Bool.eqb].
    destruct d;
      try (rewrite run_digits_append;
           [cbn [setDisplay display previousValue operation
                   waitingForNewValue label drop_leading_zeros typed];
            reflexivity
           | reflexivity | discriminate | discriminate]).
    cbn [label drop_leading_zeros]. now rewrite IH.
Qed.

(** Digits typed while a new operand is awaited: the first one replaces
    the display, the others follow the typing rule. *)
Lemma run_digits_fresh (d : DigitKey) (ds : list DigitKey) (st : State) :
  waitingForNewValue st = true ->
  run (map Digit (d :: ds)) st
  = {| display := typed_from (label d) ds;
       previousValue := previousValue st;
       operation := operation st;
       waitingForNewValue := false |}.
Proof.
  intros Hw. cbn [map]. rewrite run_cons, step_Digit, Hw.
  destruct ds as [|d' ds]; [reflexivity|].
  unfold typed_from.
  destruct (String.eqb_spec (label d) "0") as [E0|E0]; cbn [orb].
  - rewrite run_digits_zero by (reflexivity || exact E0). reflexivity.
  - destruct (String.eqb_spec (label d) EmptyString) as [Ee|Ee];
      [destruct d; discriminate Ee|].
    rewrite run_digits_append by (reflexivity || assumption). reflexivity.
Qed.

(** *** Operator and Equals, case by case *)

Lemma step_Operator_first (op : Op) (st : State) :
  previousValue st = None ->
  step (Operator op) st
  = {| display := display st;
       previousValue := Some (parseFloat (display st));
       operation := Some op; waitingForNewValue := true |}.
Proof.
  intros H. cbn [step]. unfold handleOperationPress. now rewrite H.
Qed.

Lemma step_Operator_next (op pending : Op) (prev : number) (st : State) :
  previousValue st = Some prev -> operation st = Some pending ->
  step (Operator op) st
  = {| display :=
         toString (calculate prev (parseFloat (display st)) (Some pending));
       previousValue :=
         Some (calculate prev (parseFloat (display st)) (Some pending));
       operation := Some op; waitingForNewValue := true |}.
Proof.
  intros Hp Ho. cbn [step]. unfold handleOperationPress. now rewrite Hp, Ho.
Qed.

Lemma step_Equals_pending (pending : Op) (prev : number) (st : State) :
  previousValue st = Some prev -> operation st = Some pending ->
  step Equals st
  = {| display :=
         if isNaN (calculate prev (parseFloat (display st)) (Some pending))
         then ERROR
         else toString
                (calculate prev (parseFloat (display st)) (Some pending));
       previousValue := None; operation := None;
       waitingForNewValue := true |}.
Proof.
  intros Hp Ho. cbn [step]. unfold handleEquals. rewrite Hp, Ho.
  destruct (isNaN _); reflexivity.
Qed.

(** *** Previous value and pending operation *)

Lemma paired_step (ev : Event) (st : State) :
  (previousValue st = None <-> operation st = None) ->
  (previousValue (step ev st) = None <-> operation (step ev st) = None).
Proof.
  destruct st as [d p o w]. cbn [previousValue operation]. intros H.
  destruct ev; cbn [step].
  - unfold handleNumberPress. cbn [waitingForNewValue display].
    destruct w; [exact H|]. destruct (String.eqb d "0"); exact H.
  - unfold handleDecimalPress. cbn [waitingForNewValue display].
    destruct w; [exact H|]. destruct (indexOf "." d =? -1); exact H.
  - unfold handleOperationPress. cbn [previousValue operation].
    destruct p; [destruct o|]; cbn; split; discriminate.
  - unfold handleEquals. cbn [previousValue operation].
    destruct p; [destruct o|]; try exact H.
    destruct (isNaN _); cbn; split; reflexivity.
  - cbn. split; reflexivity.
  - unfold handleToggleSign. cbn [display].
    destruct (negb (String.eqb d "0")); exact H.
  - exact H.
Qed.

(** *** A trailing decimal point *)

Lemma parse_unsigned_point (sign : bool) (ds : string) :
  all_digits ds = true -> ds <> EmptyString ->
  parse_unsigned sign (ds ++ ".") = parse_unsigned sign ds.
Proof.
  intros Hd He. unfold parse_unsigned.
  assert (Hp : forall t, prefix "Infinity" (ds ++ t) = false).
  { intros t. destruct ds as [|c r]; [contradiction|].
    cbn [append prefix]. destruct (ascii_dec "I" c) as [<-|]; [|reflexivity].
    discriminate Hd. }
  rewrite (Hp "."). pose proof (Hp EmptyString) as Hp'.
  rewrite string_app_nil_r in Hp'. rewrite Hp'.
  rewrite (span_digits_app ds "." Hd) by reflexivity.
  pose proof (span_digits_app ds EmptyString Hd I) as Hs.
  rewrite string_app_nil_r in Hs. rewrite Hs.
  cbn [span_digits]. rewrite string_app_nil_r.
  destruct ds; [contradiction|]. reflexivity.
Qed.

(** *** What [toExponential] can write *)

Lemma all7_toExponential (f : nat) (x : number) :
  all7 (toExponential f x) = true.
Proof.
  assert (Hl : forall m e, all7 m = true -> all7 (exp_layout f m e) = true).
  { intros m e Hm. unfold exp_layout. rewrite all7_app, all7_exponent_part.
    rewrite andb_true_r. destruct f as [|f']; [exact Hm|].
    destruct m as [|a b]; [reflexivity|].
    cbn [all7 append] in *. destruct a. exact Hm. }
  destruct x as [s|s| |s m e]; unfold toExponential.
  - apply Hl, all7_digits, all_digits_zeros.
  - apply all7_toString.
  - reflexivity.
  - destruct (exp_digits (Z.of_nat f) (frac_of m e)) as [e10 n].
    rewrite all7_app, (Hl _ _ (all7_digits _ (all_digits_decimal n))).
    destruct s; reflexivity.
Qed.

End ExtraFacts.

(** ** Further properties of the handlers *)

Import ExtraFacts.

(** X1.  Clear forgets everything: whatever was pressed before it and
    whatever the state was, the presses after it act as on a calculator
    that was just opened. *)
Theorem clear_forgets :
  forall evs1 evs2 st, run (evs1 ++ Clear :: evs2) st = run evs2 initial.
Proof.
  intros evs1 evs2 st. rewrite run_app, run_cons. reflexivity.
Qed.

(** X2.  A second Equals press changes nothing: the operation is not
    repeated. *)
Theorem equals_idempotent :
  forall st, step Equals (step Equals st) = step Equals st.
Proof.
  assert (Hn : forall st, previousValue st = None -> handleEquals st = st)
    by (intros st H; unfold handleEquals; now rewrite H).
  intros [d p o w]. cbn [step].
  destruct p as [prev|]; [destruct o as [pending|]|].
  - apply Hn. unfold handleEquals. cbn [previousValue operation display].
    destruct (isNaN _); reflexivity.
  - reflexivity.
  - reflexivity.
Qed.

(** X3.  In every reachable state the previous value and the pending
    operation are present together or absent together. *)
Theorem operands_together :
  forall st,
    reachable st -> (previousValue st = None <-> operation st = None).
Proof.
  intros st [evs ->]. induction evs as [|ev evs IH] using rev_ind.
  - split; reflexivity.
  - rewrite run_snoc. now apply paired_step.
Qed.

Lemma operands_together_witness :
  let st := run [Digit K4; Operator Minus; Digit K1; Equals; Operator Plus]
              initial in
  previousValue st = None <-> operation st = None.
Proof.
  apply operands_together.
  exists [Digit K4; Operator Minus; Digit K1; Equals; Operator Plus].
  reflexivity.
Defined.

(** X4.  On finite operands the only result that is not a number is a
    division by zero; so with a finite previous value and a display that
    reads as a finite number, Equals shows the error marker exactly when
    the pending operation is a division and the display reads as zero. *)
Theorem error_only_by_zero_division :
  (forall a b op,
      isFinite a = true -> isFinite b = true ->
      (isNaN (calculate a b (Some op)) = true
       <-> op = Divide /\ is_zero b = true))
  /\ (forall st prev pending,
         previousValue st = Some prev ->
         operation st = Some pending ->
         isFinite prev = true ->
         isFinite (parseFloat (display st)) = true ->
         (display (step Equals st) = ERROR
          <-> pending = Divide /\ is_zero (parseFloat (display st)) = true)).
Proof.
  split; [exact calculate_finite|].
  intros st prev pending Hp Ho Hfp Hfc.
  rewrite <- (calculate_finite prev _ pending Hfp Hfc).
  cbn [step]. unfold handleEquals. rewrite Hp, Ho.
  destruct (isNaN (calculate prev (parseFloat (display st)) (Some pending)));
    cbn [setWaitingForNewValue setOperation setPreviousValue setDisplay
         display].
  - split; reflexivity.
  - split; [|discriminate]. intros E. now apply toString_not_ERROR in E.
Qed.

Lemma error_only_by_zero_division_witness :
  (isNaN (calculate (parseFloat "7") (parseFloat "0") (Some Divide)) = true
   <-> Divide = Divide /\ is_zero (parseFloat "0") = true)
  /\ (display (step Equals (run [Digit K7; Operator Times; Digit K0] initial))
      = ERROR
      <-> Times = Divide /\ is_zero (parseFloat "0") = true).
Proof.
  split.
  - apply (proj1 error_only_by_zero_division); reflexivity.
  - apply (proj2 error_only_by_zero_division
             (run [Digit K7; Operator Times; Digit K0] initial)
             (parseFloat "7") Times); reflexivity.
Defined.

(** X5.  Addition and multiplication do not depend on the order of the
    operands. *)
Theorem calculate_commutes :
  forall a b,
    calculate a b (Some Plus) = calculate b a (Some Plus)
    /\ calculate a b (Some Times) = calculate b a (Some Times).
Proof.
  intros a b. cbn [calculate]. split; [apply add_comm | apply mul_comm].
Qed.

(** X6.  Operations are chained from left to right, without precedence:
    a, op1, b, op2, c, = shows (a op1 b) op2 c, or the error marker when
    that is not a number. *)
Theorem chain_left_to_right :
  forall st op1 op2 d1 ds1 d2 ds2,
    previousValue st = None ->
    let a := parseFloat (display st) in
    let b := parseFloat (typed_from (label d1) ds1) in
    let c := parseFloat (typed_from (label d2) ds2) in
    let r := calculate (calculate a b (Some op1)) c (Some op2) in
    run (Operator op1 :: map Digit (d1 :: ds1)
           ++ Operator op2 :: map Digit (d2 :: ds2) ++ [Equals]) st
    = {| display := if isNaN r then ERROR else toString r;
         previousValue := None; operation := None;
         waitingForNewValue := true |}.
Proof.
  intros st op1 op2 d1 ds1 d2 ds2 Hp a b c r.
  rewrite run_cons, (step_Operator_first op1 st Hp).
  rewrite run_app, run_digits_fresh by reflexivity.
  cbn [previousValue operation].
  rewrite run_cons, (step_Operator_next op2 op1 a) by reflexivity.
  cbn [display].
  rewrite run_app, run_digits_fresh by reflexivity.
  cbn [previousValue operation run fold_left].
  rewrite (step_Equals_pending op2 (calculate a b (Some op1)))
    by reflexivity.
  reflexivity.
Qed.

Lemma chain_left_to_right_witness :
  run (Operator Plus :: map Digit [K3]
         ++ Operator Times :: map Digit [K4] ++ [Equals])
    (run [Digit K2] initial)
  = {| display := "20"; previousValue := None; operation := None;
       waitingForNewValue := true |}.
Proof.
  apply (chain_left_to_right (run [Digit K2] initial) Plus Times K3 [] K4 []).
  reflexivity.
Defined.

(** X7.  Equals right after an operator uses the number on display as
    both operands: a, op, = shows a op a, or the error marker when that
    is not a number. *)
Theorem equals_after_operator :
  forall st op,
    previousValue st = None ->
    let a := parseFloat (display st) in
    let r := calculate a a (Some op) in
    run [Operator op; Equals] st
    = {| display := if isNaN r then ERROR else toString r;
         previousValue := None; operation := None;
         waitingForNewValue := true |}.
Proof.
  intros st op Hp a r.
  rewrite run_cons, (step_Operator_first op st Hp).
  cbn [run fold_left].
  rewrite (step_Equals_pending op a) by reflexivity. reflexivity.
Qed.

Lemma equals_after_operator_witness :
  run [Operator Plus; Equals] (run [Digit K5] initial)
  = {| display := "10"; previousValue := None; operation := None;
       waitingForNewValue := true |}.
Proof.
  apply (equals_after_operator (run [Digit K5] initial) Plus). reflexivity.
Defined.

(** X8.  In a reachable state whose display is not "0", ToggleSign
    negates the number the display reads as, although it only edits the
    text. *)
Theorem toggle_sign_negates :
  forall st,
    reachable st -> display st <> "0" ->
    parseFloat (display (step ToggleSign st))
    = SFopp (parseFloat (display st)).
Proof.
  intros st Hr H0. destruct (reachable_Inv st Hr) as [Ht _ _].
  cbn [step]. unfold handleToggleSign.
  destruct (String.eqb_spec (display st) "0"); [contradiction|].
  cbn [negb setDisplay display].
  destruct Ht as [Ht|[Ht _]].
  - destruct (startsWith "-" (display st)) eqn:Hs.
    + destruct (startsWith_minus _ Hs) as [r Hd]. rewrite Hd in *.
      cbn [slice1]. assert (Hu : unsigned_start r = true) by exact Ht.
      rewrite parseFloat_minus, parse_unsigned_opp, SFopp_involutive.
      now apply parseFloat_unsigned_start.
    + destruct (display st) as [|c r] eqn:Hd; [discriminate Ht|].
      pose proof (startsWith_minus_false c r Hs) as Hc.
      assert (Hu : unsigned_start (String c r) = true).
      { revert Ht. unfold numeric_start, strip_minus.
        destruct (Ascii.eqb_spec c "-"); [contradiction | exact (fun x => x)]. }
      change ("-" ++ String c r) with (String "-" (String c r)).
      rewrite parseFloat_minus, parse_unsigned_opp.
      now rewrite (parseFloat_unsigned_start _ Hu).
  - destruct (nan_text_cases _ Ht) as [E|[E|[E|E]]]; rewrite E; reflexivity.
Qed.

Lemma toggle_sign_negates_witness :
  let st := run [Digit K0; Decimal; Digit K5] initial in
  parseFloat (display (step ToggleSign st)) = SFopp (parseFloat (display st)).
Proof.
  apply toggle_sign_negates.
  - exists [Digit K0; Decimal; Digit K5]. reflexivity.
  - discriminate.
Defined.

(** X9.  Percent keeps numbers numbers: the display reads as NaN after
    the press exactly when it did before. *)
Theorem percent_keeps_numbers :
  forall st,
    isNaN (parseFloat (display (step Percent st)))
    = isNaN (parseFloat (display st)).
Proof.
  intros st. cbn [step]. unfold handlePercentage. cbn [setDisplay display].
  now rewrite parseFloat_toString_isNaN, div_100_isNaN.
Qed.

(** X10.  A decimal point typed behind a whole number does not show:
    the rendered text is the same before and after the press; and when
    a new operand is awaited, the press renders as "0". *)
Theorem decimal_point_not_rendered :
  forall st,
    (waitingForNewValue st = false ->
     all_digits (strip_minus (display st)) = true ->
     strip_minus (display st) <> EmptyString ->
     display (step Decimal st) = display st ++ "."
     /\ formatDisplay (display (step Decimal st))
        = formatDisplay (display st))
    /\ (waitingForNewValue st = true ->
        formatDisplay (display (step Decimal st)) = "0").
Proof.
  intros [d p o w]. cbn [display waitingForNewValue step]. split.
  - intros -> Hd He.
    assert (Hsh : exists sign ds,
               d = (if sign : bool then "-" else EmptyString) ++ ds
               /\ all_digits ds = true /\ ds <> EmptyString).
    { destruct d as [|c r]; [contradiction|]. unfold strip_minus in Hd, He.
      destruct (Ascii.eqb_spec c "-") as [->|Hc].
      - exists true, r. now repeat split.
      - exists false, (String c r). now repeat split. }
    destruct Hsh as [sign [ds [-> [Hds Hne]]]].
    assert (Hdots : dots ((if sign then "-" else EmptyString) ++ ds) = O)
      by (rewrite dots_app, (dots_digits _ Hds); now destruct sign).
    unfold handleDecimalPress. cbn [waitingForNewValue display].
    rewrite (dots_indexOf _ Hdots). cbn [Z.eqb Pos.eqb setDisplay display].
    split; [reflexivity|].
    assert (Hparse :
      parseFloat (((if sign then "-" else EmptyString) ++ ds) ++ ".")
      = parseFloat ((if sign then "-" else EmptyString) ++ ds)).
    { rewrite string_app_assoc.
      destruct ds as [|c r] eqn:Eds; [contradiction|]. rewrite <- Eds in *.
      destruct sign.
      - change ("-" ++ ds ++ ".") with (String "-" (ds ++ ".")).
        change ("-" ++ ds) with (String "-" ds).
        rewrite !parseFloat_minus. now apply parse_unsigned_point.
      - cbn [append].
        assert (Hc : is_digit c = true)
          by (rewrite Eds in Hds; cbn [all_digits] in Hds;
              now apply andb_prop in Hds).
        rewrite Eds. change (String c r ++ ".") with (String c (r ++ ".")).
        rewrite !(parseFloat_unsigned c) by exact Hc.
        change (String c (r ++ ".")) with (String c r ++ ".").
        rewrite <- Eds. now apply parse_unsigned_point. }
    unfold formatDisplay. rewrite Hparse.
    assert (H7 : forall t,
      String.eqb (((if sign then "-" else EmptyString) ++ ds) ++ t) ERROR
      = false).
    { intros t. apply String.eqb_neq. intros E.
      destruct ds as [|c r]; [contradiction|].
      cbn [all_digits] in Hds. apply andb_prop in Hds. destruct Hds as [Hc _].
      destruct sign; cbn [append] in E; injection E as E _;
        [discriminate E | subst c; discriminate Hc]. }
    rewrite (H7 "."). pose proof (H7 EmptyString) as H7'.
    rewrite string_app_nil_r in H7'. now rewrite H7'.
  - intros ->. reflexivity.
Qed.

Lemma decimal_point_not_rendered_witness :
  (display (step Decimal (run [Digit K1; Digit K2] initial)) = "12."
   /\ formatDisplay (display (step Decimal (run [Digit K1; Digit K2] initial)))
      = formatDisplay "12")
  /\ formatDisplay
       (display (step Decimal (run [Digit K1; Operator Plus] initial)))
     = "0".
Proof.
  split.
  - apply (proj1 (decimal_point_not_rendered
                    (run [Digit K1; Digit K2] initial)));
      [reflexivity | reflexivity | discriminate].
  - apply (proj2 (decimal_point_not_rendered
                    (run [Digit K1; Operator Plus] initial))).
    reflexivity.
Defined.

(** X11.  The screen shows the error marker only when the display is
    the error marker itself. *)
Theorem formatDisplay_marker :
  forall value, formatDisplay value = ERROR <-> value = ERROR.
Proof.
  intros value. split.
  - unfold formatDisplay.
    destruct (String.eqb_spec value ERROR) as [E|E]; [now intros _|].
    intros H. exfalso.
    assert (H7 : all7 ERROR = true); [|discriminate H7].
    rewrite <- H.
    destruct (isNaN (parseFloat value)); [reflexivity|].
    destruct (geb _ _); [apply all7_toExponential | apply all7_toString].
  - intros ->. reflexivity.
Qed.

(** X12.  Digits typed while a new operand is awaited (after an
    operator or a result) start a new number: the first digit replaces
    the display, the following ones are appended, a leading "0" being
    replaced; the previous value and the pending operation stay. *)
Theorem digits_start_new_operand :
  forall st d ds,
    waitingForNewValue st = true ->
    run (map Digit (d :: ds)) st
    = {| display := typed_from (label d) ds;
         previousValue := previousValue st;
         operation := operation st;
         waitingForNewValue := false |}.
Proof. intros st d ds Hw. now apply run_digits_fresh. Qed.

Lemma digits_start_new_operand_witness :
  run (map Digit [K0; K0; K7; K0])
    (run [Digit K9; Operator Minus] initial)
  = {| display := "70";
       previousValue := Some (parseFloat "9");
       operation := Some Minus;
       waitingForNewValue := false |}.
Proof.
  apply (digits_start_new_operand (run [Digit K9; Operator Minus] initial)
           K0 [K0; K7; K0]).
  reflexivity.
Defined.

(** X13.  The display of a reachable state is never empty, never a
    lone minus sign, never "-0", and never starts with two minus
    signs. *)
Theorem display_well_formed :
  forall st,
    reachable st ->
    display st <> EmptyString /\ display st <> "-" /\ display st <> "-0"
    /\ startsWith "--" (display st) = false.
Proof.
  intros st Hr. destruct (reachable_Inv st Hr) as [Ht Hz _].
  destruct Ht as [Ht|[Ht _]].
  - repeat split; try exact Hz;
      try (intros E; rewrite E in Ht; discriminate Ht).
    destruct (display st) as [|c r]; [reflexivity|].
    unfold startsWith. cbn [prefix].
    destruct (ascii_dec "-" c) as [<-|]; [|reflexivity].
    destruct r as [|c' r]; [reflexivity|]. cbn [prefix].
    destruct (ascii_dec "-" c') as [<-|]; [|reflexivity].
    discriminate Ht.
  - destruct (nan_text_cases _ Ht) as [E|[E|[E|E]]]; rewrite E;
      repeat split; discriminate.
Qed.

Lemma display_well_formed_witness :
  let st := run [Digit K3; ToggleSign; Operator Minus; Digit K3; ToggleSign;
                 Equals; ToggleSign] initial in
  display st <> EmptyString /\ display st <> "-" /\ display st <> "-0"
  /\ startsWith "--" (display st) = false.
Proof.
  apply display_well_formed.
  exists [Digit K3; ToggleSign; Operator Minus; Digit K3; ToggleSign;
          Equals; ToggleSign].
  reflexivity.
Defined.

(** X14.  Digits typed behind a decimal point are appended as they
    are, zeros included: while a new operand is awaited, Decimal and
    then digits show "0." followed by the digits; otherwise, on a
    display without a point, they show the display, a point and the
    digits. *)
Theorem decimal_then_digits :
  forall st ds,
    (waitingForNewValue st = true ->
     run (Decimal :: map Digit ds) st
     = {| display := "0." ++ typed ds;
          previousValue := previousValue st;
          operation := operation st;
          waitingForNewValue := false |})
    /\ (waitingForNewValue st = false ->
        indexOf "." (display st) = -1 ->
        run (Decimal :: map Digit ds) st
        = setDisplay (display st ++ "." ++ typed ds) st).
Proof.
  intros [d p o w] ds. cbn [waitingForNewValue display previousValue operation].
  split.
  - intros ->. rewrite run_cons. cbn [step]. unfold handleDecimalPress.
    cbn [waitingForNewValue setWaitingForNewValue setDisplay display
         previousValue operation].
    rewrite run_digits_append; try reflexivity; discriminate.
  - intros -> Hi. rewrite run_cons. cbn [step]. unfold handleDecimalPress.
    cbn [waitingForNewValue display]. rewrite Hi.
    cbn [Z.eqb Pos.eqb setDisplay display previousValue operation
         waitingForNewValue].
    rewrite run_digits_append; cbn [display waitingForNewValue].
    + unfold setDisplay.
      cbn [display previousValue operation waitingForNewValue].
      now rewrite string_app_assoc.
    + reflexivity.
    + destruct d as [|c [|c' r]]; discriminate.
    + destruct d; discriminate.
Qed.

Lemma decimal_then_digits_witness :
  run (Decimal :: map Digit [K0; K0; K5])
    (run [Digit K2; Operator Plus] initial)
  = {| display := "0.005";
       previousValue := Some (parseFloat "2");
       operation := Some Plus;
       waitingForNewValue := false |}
  /\ run (Decimal :: map Digit [K5; K0]) (run [Digit K1] initial)
     = setDisplay "1.50" (run [Digit K1] initial).
Proof.
  split.
  - apply (proj1 (decimal_then_digits
                    (run [Digit K2; Operator Plus] initial) [K0; K0; K5])).
    reflexivity.
  - apply (proj2 (decimal_then_digits (run [Digit K1] initial) [K5; K0]));
      reflexivity.
Defined.
